(** * ML Avatar Service (ml_service/app.py): a shallow embedding and its properties

    The service is a Flask application with one health probe and four stub
    handlers.  The embedding follows the source handler by handler:

    - [Binary64]: Python's [float] (IEEE 754 binary64, round to nearest, ties
      to even) as exact rationals that are rounded after every operation;
    - [Py]: the dynamically typed values a handler sees ([request.json] and
      what is handed to [jsonify]), the exceptions the used operations raise,
      and the operations themselves ([dict.get], subscription, [len],
      iteration, [str.replace], the numeric tower);
    - [Random]: [random.random()] as a stream of 53-bit draws that is threaded
      through the handlers;
    - [App]: the handlers of app.py, under the names of the source.

    Logging is not modelled beyond evaluating the logged expressions (they can
    raise); [jsonify] is the identity on values.  A handler starts from the
    parsed body [request.json]: what Flask itself answers to a body that is
    not JSON is outside app.py.  Strings are byte strings; the handlers
    only search them for ASCII patterns. *)

From Stdlib Require Import ZArith QArith Qabs Qround Qpower Lia Lqa Bool List String Ascii.
From Stdlib Require Import Floats.
Import ListNotations.

Set Warnings "-inexact-float,-register-all".

(* ================================================================== *)
(** ** Python floats *)

Module Binary64.
Open Scope Q_scope.

(** [2^z] as a rational, for any integer exponent. *)
Definition pow2 (z : Z) : Q := Qpower 2 z.

(** [ilog2 q] is [floor (log2 |q|)] for [q <> 0] (and 0 at 0). *)
Definition ilog2 (q : Q) : Z :=
  let e := (Z.log2 (Z.abs (Qnum q)) - Z.log2 (Zpos (Qden q)))%Z in
  if Qeq_bool q 0 then 0%Z
  else if Qle_bool (pow2 e) (Qabs q) then e else (e - 1)%Z.

(** Round a rational to the nearest integer, ties to the even one. *)
Definition rne (q : Q) : Z :=
  let f := Qfloor q in
  match Qcompare (q - inject_Z f) (1 # 2) with
  | Lt => f
  | Gt => (f + 1)%Z
  | Eq => if Z.even f then f else (f + 1)%Z
  end.

(** The exponent of the last place of the binary64 format at [q]: 53
    significant bits, and never below the subnormal spacing [2^-1074]. *)
Definition cexp (q : Q) : Z := Z.max (ilog2 q - 52) (-1074).

(** Rounding to the format, exponent unbounded above; the result is kept in
    lowest terms, so that equal floats are equal terms. *)
Definition round (q : Q) : Q :=
  let e := cexp q in Qred (inject_Z (rne (q / pow2 e)) * pow2 e).

(** A float: a finite rational, an infinity with its sign, or not-a-number.
    The two zeros are identified: the handlers compare, divide and test for
    zero, none of which tells [-0.0] from [0.0]. *)
Inductive pyfloat : Type :=
| Fin (q : Q)
| Inf (negative : bool)
| NaN.

(** The largest finite float, [(2^53 - 1) * 2^971]. *)
Definition big : Z := ((2 ^ 53 - 1) * 2 ^ 971)%Z.
Definition max_finite : Q := inject_Z big.

Definition Qneg (q : Q) : bool := negb (Qle_bool 0 q).

(** The float nearest to a rational; what rounds beyond the largest finite
    float overflows to an infinity. *)
Definition of_Q (q : Q) : pyfloat :=
  let r := round q in
  if Qle_bool (Qabs r) max_finite then Fin r else Inf (Qneg r).

Definition is_zero (x : pyfloat) : bool :=
  match x with Fin q => Qeq_bool q 0 | _ => false end.

Definition fadd (x y : pyfloat) : pyfloat :=
  match x, y with
  | NaN, _ | _, NaN => NaN
  | Fin a, Fin b => of_Q (a + b)
  | Inf s, Fin _ | Fin _, Inf s => Inf s
  | Inf s, Inf t => if Bool.eqb s t then Inf s else NaN
  end.

Definition fopp (x : pyfloat) : pyfloat :=
  match x with
  | Fin a => Fin (Qred (- a))
  | Inf s => Inf (negb s)
  | NaN => NaN
  end.

Definition fsub (x y : pyfloat) : pyfloat :=
  match x, y with
  | Fin a, Fin b => of_Q (a - b)
  | _, _ => fadd x (fopp y)
  end.

Definition fmul (x y : pyfloat) : pyfloat :=
  match x, y with
  | NaN, _ | _, NaN => NaN
  | Fin a, Fin b => of_Q (a * b)
  | Inf s, Fin b | Fin b, Inf s =>
      if Qeq_bool b 0 then NaN else Inf (xorb s (Qneg b))
  | Inf s, Inf t => Inf (xorb s t)
  end.

(** IEEE division.  Python raises before dividing by a zero, so the zero
    divisor row is only there to make the function total. *)
Definition fdiv (x y : pyfloat) : pyfloat :=
  match x, y with
  | NaN, _ | _, NaN => NaN
  | Fin a, Fin b =>
      if Qeq_bool b 0 then (if Qeq_bool a 0 then NaN else Inf (Qneg a))
      else of_Q (a / b)
  | Fin _, Inf _ => Fin 0
  | Inf s, Fin b => Inf (xorb s (Qneg b))
  | Inf _, Inf _ => NaN
  end.

(** [x < y]; every comparison with NaN is false. *)
Definition flt (x y : pyfloat) : bool :=
  match x, y with
  | NaN, _ | _, NaN => false
  | Fin a, Fin b => negb (Qle_bool b a)
  | Fin _, Inf s => negb s
  | Inf s, Fin _ => s
  | Inf s, Inf t => s && negb t
  end.

Definition fgt (x y : pyfloat) : bool := flt y x.

(** [x <= y]. *)
Definition fle (x y : pyfloat) : bool :=
  match x, y with
  | NaN, _ | _, NaN => false
  | Fin a, Fin b => Qle_bool a b
  | Fin _, Inf s => negb s
  | Inf s, Fin _ => s
  | Inf s, Inf t => s || negb t
  end.

(** [x == y]. *)
Definition feq (x y : pyfloat) : bool :=
  match x, y with
  | Fin a, Fin b => Qeq_bool a b
  | Inf s, Inf t => Bool.eqb s t
  | _, _ => false
  end.

(** A decimal literal of the source denotes the nearest float. *)
Definition lit (q : Q) : pyfloat := of_Q q.

(** The value of one of Rocq's primitive binary64 floats, to compare this
    model with the kernel's IEEE arithmetic on the constants of the source. *)
Definition of_prim (f : PrimFloat.float) : pyfloat :=
  match Prim2SF f with
  | S754_zero _ => Fin 0
  | S754_finite s m e =>
      Fin (Qred ((if s then -1 else 1) * inject_Z (Zpos m) * pow2 e))
  | S754_infinity s => Inf s
  | S754_nan => NaN
  end.

End Binary64.

(* ================================================================== *)
(** ** Python values, exceptions and the operations the handlers use *)

Module Py.
Import Binary64.
Open Scope string_scope.

(** The exceptions the modelled operations raise. *)
Inductive exn : Type :=
| KeyError
| TypeError
| AttributeError
| ZeroDivisionError
| OverflowError.

Inductive result (A : Type) : Type :=
| Ok (a : A)
| Raise (e : exn).
Arguments Ok {A} a.
Arguments Raise {A} e.

Definition bind {A B} (r : result A) (k : A -> result B) : result B :=
  match r with
  | Ok a => k a
  | Raise e => Raise e
  end.

Declare Scope py_scope.
Delimit Scope py_scope with py.
Notation "x <- c ;; k" := (bind c (fun x => k))
  (at level 61, c at next level, right associativity) : py_scope.

(** What [request.json] yields and what [jsonify] takes: None, booleans,
    integers, floats, strings, lists and dicts with string keys.  A dict is
    an association list in insertion order; the first binding of a key is
    its binding. *)
Inductive value : Type :=
| VNone
| VBool (b : bool)
| VInt (z : Z)
| VFloat (f : pyfloat)
| VStr (s : string)
| VList (l : list value)
| VDict (d : list (string * value)).

Definition dict := list (string * value).

Fixpoint lookup (key : string) (d : dict) : option value :=
  match d with
  | [] => None
  | (k, v) :: d' => if String.eqb k key then Some v else lookup key d'
  end.

(** [key in d] *)
Definition dict_mem (key : string) (d : dict) : bool :=
  match lookup key d with Some _ => true | None => false end.

(** [d[key] = v]: an existing key keeps its place, a new key goes last. *)
Fixpoint dict_set (key : string) (v : value) (d : dict) : dict :=
  match d with
  | [] => [(key, v)]
  | (k, w) :: d' =>
      if String.eqb k key then (k, v) :: d' else (k, w) :: dict_set key v d'
  end.

(** [o.get(key, default)]: only a dict has the method. *)
Definition get (o : value) (key : string) (default : value) : result value :=
  match o with
  | VDict d => Ok (match lookup key d with Some v => v | None => default end)
  | _ => Raise AttributeError
  end.

(** [o[key]] for a string key: a dict without the key raises KeyError, and
    everything else cannot be subscripted by a string. *)
Definition getitem (o : value) (key : string) : result value :=
  match o with
  | VDict d => match lookup key d with Some v => Ok v | None => Raise KeyError end
  | _ => Raise TypeError
  end.

(** [len(o)] *)
Definition len (o : value) : result nat :=
  match o with
  | VList l => Ok (List.length l)
  | VStr s => Ok (String.length s)
  | VDict d => Ok (List.length d)
  | _ => Raise TypeError
  end.

Fixpoint chars (s : string) : list value :=
  match s with
  | EmptyString => []
  | String c s' => VStr (String c EmptyString) :: chars s'
  end.

(** The items a [for] loop over [o] visits: the elements of a list, the
    characters of a string, the keys of a dict. *)
Definition iter (o : value) : result (list value) :=
  match o with
  | VList l => Ok l
  | VStr s => Ok (chars s)
  | VDict d => Ok (map (fun kv => VStr (fst kv)) d)
  | _ => Raise TypeError
  end.

(** A loop that appends one computed item per element and stops at the
    first exception. *)
Fixpoint for_each {A B} (f : A -> result B) (l : list A) : result (list B) :=
  match l with
  | [] => Ok []
  | a :: l' => (b <- f a ;; bs <- for_each f l' ;; Ok (b :: bs))%py
  end.

(** *** str.replace *)

(** The scan of [s.replace(old, new)] for a non-empty [old]: left to right,
    every occurrence that does not overlap an earlier one is replaced;
    [skip] counts the characters of a match still to be passed over. *)
Fixpoint replace_from (old new : string) (skip : nat) (s : string) : string :=
  match s with
  | EmptyString => EmptyString
  | String c s' =>
      match skip with
      | S k => replace_from old new k s'
      | O =>
          if prefix old s
          then new ++ replace_from old new (String.length old - 1) s'
          else String c (replace_from old new 0 s')
      end
  end.

(** With an empty [old], Python puts [new] before every character and at
    the end. *)
Fixpoint intersperse (new s : string) : string :=
  match s with
  | EmptyString => new
  | String c s' => new ++ String c (intersperse new s')
  end.

Definition str_replace (s old new : string) : string :=
  match old with
  | EmptyString => intersperse new s
  | _ => replace_from old new 0 s
  end.

(** [o.replace(old, new)]: only a string has the method. *)
Definition replace (o : value) (old new : string) : result value :=
  match o with
  | VStr s => Ok (VStr (str_replace s old new))
  | _ => Raise AttributeError
  end.

(** [o == 'text'] *)
Definition eq_str (o : value) (text : string) : bool :=
  match o with
  | VStr s => String.eqb s text
  | _ => false
  end.

(** *** The numeric tower *)

(** The operands arithmetic accepts: integers (booleans are the integers 0
    and 1) and floats. *)
Inductive num : Type :=
| NInt (z : Z)
| NFloat (f : pyfloat).

Definition as_num (v : value) : result num :=
  match v with
  | VBool b => Ok (NInt (if b then 1 else 0))
  | VInt z => Ok (NInt z)
  | VFloat f => Ok (NFloat f)
  | _ => Raise TypeError
  end.

Definition of_num (n : num) : value :=
  match n with
  | NInt z => VInt z
  | NFloat f => VFloat f
  end.

(** An integer operand of a float operation is converted first, correctly
    rounded; one that is too large raises OverflowError. *)
Definition to_float (n : num) : result pyfloat :=
  match n with
  | NFloat f => Ok f
  | NInt z =>
      match of_Q (inject_Z z) with
      | Inf _ => Raise OverflowError
      | f => Ok f
      end
  end.

Definition float_op (op : pyfloat -> pyfloat -> pyfloat) (a b : num) : result num :=
  (x <- to_float a ;; y <- to_float b ;; Ok (NFloat (op x y)))%py.

(** [a + b], [a - b], [a * b]: exact on two integers, float arithmetic
    otherwise. *)
Definition add (a b : num) : result num :=
  match a, b with
  | NInt x, NInt y => Ok (NInt (x + y))
  | _, _ => float_op fadd a b
  end.

Definition sub (a b : num) : result num :=
  match a, b with
  | NInt x, NInt y => Ok (NInt (x - y))
  | _, _ => float_op fsub a b
  end.

Definition mul (a b : num) : result num :=
  match a, b with
  | NInt x, NInt y => Ok (NInt (x * y))
  | _, _ => float_op fmul a b
  end.

(** [a / b], true division: always a float.  Two integers give the
    correctly rounded quotient (OverflowError if it is too large for a
    float); otherwise both operands are converted, and then the divisor is
    tested.  A zero divisor raises ZeroDivisionError. *)
Definition truediv (a b : num) : result pyfloat :=
  match a, b with
  | NInt x, NInt y =>
      if (y =? 0)%Z then Raise ZeroDivisionError
      else match of_Q (inject_Z x / inject_Z y) with
           | Inf _ => Raise OverflowError
           | f => Ok f
           end
  | _, _ =>
      (x <- to_float a ;;
       y <- to_float b ;;
       if is_zero y then Raise ZeroDivisionError else Ok (fdiv x y))%py
  end.

(** [v / w] on values: operands that are not numbers raise TypeError. *)
Definition truediv_values (v w : value) : result pyfloat :=
  (a <- as_num v ;; b <- as_num w ;; truediv a b)%py.

End Py.

(* ================================================================== *)
(** ** random.random() *)

Module Random.
Import Binary64 Py.

(** The generator: the stream of the 53-bit integers it will produce and
    the number of draws made so far. *)
Record rng : Type := { draws : nat -> Z; pos : nat }.

(** Every draw is an integer [k] with [0 <= k < 2^53]. *)
Definition valid (g : rng) : Prop :=
  forall i, (0 <= draws g i < 2 ^ 53)%Z.

Definition next (g : rng) : rng := {| draws := draws g; pos := S (pos g) |}.

(** The float [k / 2^53] of the [i]-th draw. *)
Definition draw (g : rng) (i : nat) : pyfloat :=
  Fin (Qred (draws g i # 2 ^ 53)).

(** A handler that draws random numbers: it takes the generator, and
    returns its value with the generator advanced, or raises. *)
Definition M (A : Type) : Type := rng -> result (A * rng).

Definition ret {A} (a : A) : M A := fun g => Ok (a, g).

Definition bindM {A B} (m : M A) (k : A -> M B) : M B :=
  fun g => match m g with
           | Ok (a, g') => k a g'
           | Raise e => Raise e
           end.

Definition lift {A} (r : result A) : M A :=
  fun g => match r with Ok a => Ok (a, g) | Raise e => Raise e end.

(** [random.random()]: a float in [0, 1). *)
Definition random : M num := fun g => Ok (NFloat (draw g (pos g)), next g).

Declare Scope rng_scope.
Delimit Scope rng_scope with rng.
Notation "x <- c ;; k" := (bindM c (fun x => k))
  (at level 61, c at next level, right associativity) : rng_scope.

Fixpoint for_eachM {A B} (f : A -> M B) (l : list A) : M (list B) :=
  match l with
  | [] => ret []
  | a :: l' => (b <- f a ;; bs <- for_eachM f l' ;; ret (b :: bs))%rng
  end.

End Random.

(* ================================================================== *)
(** ** The handlers of app.py *)

Module App.
Import Binary64 Py Random.
Open Scope string_scope.

(** What Flask answers for a view function: 200 with the JSON document the
    view returned, or, when the view raised, the generic 500 page. *)
Record response : Type := { status : Z; body : option value }.

Definition respond (r : result value) : response :=
  match r with
  | Ok v => {| status := 200; body := Some v |}
  | Raise _ => {| status := 500; body := None |}
  end.

(** [GET /health] *)
Definition health : result value :=
  Ok (VDict [("status", VStr "healthy"); ("service", VStr "ML Avatar Service")]).

(** [POST /background-removal]; [data] is [request.json]. *)
Definition remove_background (data : value) : result value :=
  (photos <- get data "photos" (VList []) ;;
   _ <- len photos ;;
   items <- iter photos ;;
   processed_photos <-
     for_each (fun photo =>
       url <- getitem photo "url" ;;
       url <- replace url ".jpg" "_masked.jpg" ;;
       url <- replace url ".png" "_masked.png" ;;
       type <- getitem photo "type" ;;
       Ok (VDict [("url", url);
                  ("type", type);
                  ("maskQuality", VFloat (lit 0.95))])) items ;;
   Ok (VDict [("processedPhotos", VList processed_photos)]))%py.

Definition landmark_names : list string :=
  [ "nose"; "left_eye_inner"; "left_eye"; "left_eye_outer";
    "right_eye_inner"; "right_eye"; "right_eye_outer";
    "left_ear"; "right_ear"; "mouth_left"; "mouth_right";
    "left_shoulder"; "right_shoulder"; "left_elbow"; "right_elbow";
    "left_wrist"; "right_wrist"; "left_pinky"; "right_pinky";
    "left_index"; "right_index"; "left_thumb"; "right_thumb";
    "left_hip"; "right_hip"; "left_knee"; "right_knee";
    "left_ankle"; "right_ankle"; "left_heel"; "right_heel";
    "left_foot_index"; "right_foot_index" ].

(** [enumerate(l)] *)
Definition enumerate {A} (l : list A) : list (nat * A) :=
  combine (seq 0 (List.length l)) l.

(** The body of the loop of [detect_pose]: the point for index [i] and
    name [name]; the dict display is evaluated in the order it is written. *)
Definition pose_point (i : nat) (name : string) : M value :=
  (r <- random ;;
   t <- lift (mul r (NFloat (lit 0.4))) ;;
   x <- lift (add (NFloat (lit 0.3)) t) ;;
   q <- lift (truediv (NInt (Z.of_nat i)) (NInt 33)) ;;
   t <- lift (mul (NFloat q) (NFloat (lit 0.9))) ;;
   y <- lift (add t (NFloat (lit 0.05))) ;;
   r <- random ;;
   t <- lift (mul r (NFloat (lit 0.1))) ;;
   z <- lift (sub t (NFloat (lit 0.05))) ;;
   r <- random ;;
   t <- lift (mul r (NFloat (lit 0.1))) ;;
   confidence <- lift (add (NFloat (lit 0.85)) t) ;;
   ret (VDict [("x", of_num x);
               ("y", of_num y);
               ("z", of_num z);
               ("confidence", of_num confidence);
               ("name", VStr name)]))%rng.

(** [POST /pose-detection] *)
Definition detect_pose (data : value) : M value :=
  (photos <- lift (get data "photos" (VList [])) ;;
   _ <- lift (len photos) ;;
   points <- for_eachM (fun '(i, name) => pose_point i name)
                       (enumerate landmark_names) ;;
   let landmarks :=
     VDict [("points", VList points);
            ("averageConfidence", VFloat (lit 0.92))] in
   ret (VDict [("landmarks", landmarks)]))%rng.

(** [lo + random.random() * span], as the display of [base_measurements]
    writes it nine times. *)
Definition stub_measurement (lo span : Z) : M value :=
  (r <- random ;;
   t <- lift (mul r (NInt span)) ;;
   v <- lift (add (NInt lo) t) ;;
   ret (of_num v))%rng.

(** The keys the imperial conversion loops over. *)
Definition length_keys : list string :=
  [ "height"; "shoulderWidth"; "chestCircumference"; "waistCircumference";
    "hipCircumference"; "armLength"; "inseam"; "neckCircumference";
    "thighCircumference" ].

(** One iteration of the conversion loop:
    [if key in base_measurements: base_measurements[key] = base_measurements[key] / 2.54] *)
Definition to_imperial (base_measurements : dict) (key : string) : result dict :=
  if dict_mem key base_measurements then
    (v <- getitem (VDict base_measurements) key ;;
     q <- truediv_values v (VFloat (lit 2.54)) ;;
     Ok (dict_set key (VFloat q) base_measurements))%py
  else Ok base_measurements.

Fixpoint convert (keys : list string) (base_measurements : dict) : result dict :=
  match keys with
  | [] => Ok base_measurements
  | key :: keys' =>
      (base_measurements <- to_imperial base_measurements key ;;
       convert keys' base_measurements)%py
  end.

(** [POST /measurement-extraction] *)
Definition extract_measurements (data : value) : M value :=
  (landmarks <- lift (get data "landmarks" VNone) ;;
   unit <- lift (get data "unit" (VStr "metric")) ;;
   height <- stub_measurement 170 20 ;;
   shoulderWidth <- stub_measurement 40 10 ;;
   chestCircumference <- stub_measurement 90 15 ;;
   waistCircumference <- stub_measurement 75 15 ;;
   hipCircumference <- stub_measurement 95 15 ;;
   armLength <- stub_measurement 55 10 ;;
   inseam <- stub_measurement 75 10 ;;
   neckCircumference <- stub_measurement 35 5 ;;
   thighCircumference <- stub_measurement 50 10 ;;
   let base_measurements : dict :=
     [("height", height);
      ("shoulderWidth", shoulderWidth);
      ("chestCircumference", chestCircumference);
      ("waistCircumference", waistCircumference);
      ("hipCircumference", hipCircumference);
      ("armLength", armLength);
      ("inseam", inseam);
      ("neckCircumference", neckCircumference);
      ("thighCircumference", thighCircumference);
      ("confidence", VFloat (lit 0.89));
      ("unit", unit)] in
   base_measurements <-
     lift (if eq_str unit "imperial"
           then convert length_keys base_measurements
           else Ok base_measurements) ;;
   ret (VDict [("measurements", VDict base_measurements)]))%rng.

(** [POST /body-type-classification] *)
Definition classify_body_type (data : value) : result value :=
  (measurements <- get data "measurements" VNone ;;
   waist <- get measurements "waistCircumference" (VInt 80) ;;
   hip <- get measurements "hipCircumference" (VInt 100) ;;
   shoulder <- get measurements "shoulderWidth" (VInt 45) ;;
   waist_to_hip_ratio <- truediv_values waist hip ;;
   shoulder_to_hip_ratio <- truediv_values shoulder hip ;;
   let body_type :=
     if flt waist_to_hip_ratio (lit 0.75) then "hourglass"
     else if fgt shoulder_to_hip_ratio (lit 0.5) then "inverted-triangle"
     else if fgt waist_to_hip_ratio (lit 0.85) then "rectangle"
     else "pear" in
   Ok (VDict [("bodyType", VStr body_type);
              ("confidence", VFloat (lit 0.87))]))%py.

End App.

(* ================================================================== *)
(** ** What the specification says, in the vocabulary of the model *)

Module Spec.
Import Binary64 Py Random App.
Open Scope string_scope.

(** The unit flag of a request: [data.get('unit', 'metric')]. *)
Definition request_unit (d : dict) : value :=
  match lookup "unit" d with Some v => v | None => VStr "metric" end.

(** The photos of a request: [data.get('photos', [])]. *)
Definition request_photos (d : dict) : value :=
  match lookup "photos" d with Some v => v | None => VList [] end.

(** The largest value [random.random()] returns, [1 - 2^-53]. *)
Definition rmax : Q := (2 ^ 53 - 1) # 2 ^ 53.

(** An integer literal as a float. *)
Definition of_int (z : Z) : pyfloat := of_Q (inject_Z z).

(** The value [lo + r * span] of a stub measurement for the draw [r]. *)
Definition stub_value (lo span : Z) (r : pyfloat) : pyfloat :=
  fadd (of_int lo) (fmul r (of_int span)).

(** The nine measurements with their metric ranges [lo, hi] in centimetres
    and the [lo], [span] the handler draws them with. *)
Definition metric_ranges : list (string * (Z * Z)) :=
  [ ("height", (170, 190)%Z);
    ("shoulderWidth", (40, 50)%Z);
    ("chestCircumference", (90, 105)%Z);
    ("waistCircumference", (75, 90)%Z);
    ("hipCircumference", (95, 110)%Z);
    ("armLength", (55, 65)%Z);
    ("inseam", (75, 85)%Z);
    ("neckCircumference", (35, 40)%Z);
    ("thighCircumference", (50, 60)%Z) ].

(** [lo <= v <= hi] on floats. *)
Definition within (lo hi v : pyfloat) : Prop :=
  fle lo v = true /\ fle v hi = true.

(** The coordinates of a landmark point for its index and its draws. *)
Definition pose_x (r : pyfloat) : pyfloat := fadd (lit 0.3) (fmul r (lit 0.4)).
Definition pose_y (i : nat) : pyfloat :=
  fadd (fmul (of_Q (inject_Z (Z.of_nat i) / 33)) (lit 0.9)) (lit 0.05).
Definition pose_z (r : pyfloat) : pyfloat := fsub (fmul r (lit 0.1)) (lit 0.05).
Definition pose_confidence (r : pyfloat) : pyfloat :=
  fadd (lit 0.85) (fmul r (lit 0.1)).

(** The point of index [i] and name [name] when the generator stands at
    [g]: its three draws are the next three of the stream. *)
Definition point_at (g : rng) (i : nat) (name : string) : value :=
  VDict [("x", VFloat (pose_x (draw g (pos g))));
         ("y", VFloat (pose_y i));
         ("z", VFloat (pose_z (draw g (S (pos g)))));
         ("confidence", VFloat (pose_confidence (draw g (S (S (pos g))))));
         ("name", VStr name)].

(** The generator after [n] draws. *)
Definition advance (n : nat) (g : rng) : rng :=
  {| draws := draws g; pos := n + pos g |}.

(** The points of a loop over the indexed names [l] that starts with the
    generator at [g]: each point takes three draws. *)
Fixpoint points_from (g : rng) (l : list (nat * string)) : list value :=
  match l with
  | [] => []
  | (i, name) :: l' =>
      point_at g i name
      :: points_from (advance 3 g) l'
  end.

(** The field of a dict value. *)
Definition field (key : string) (v : value) : option value :=
  match v with VDict d => lookup key d | _ => None end.

Definition float_field (key : string) (v : value) : option pyfloat :=
  match field key v with Some (VFloat f) => Some f | _ => None end.

(** A landmark point as the specification describes it: the index's [y],
    the given name, and [x], [z], [confidence] within their ranges. *)
Definition landmark_ok (i : nat) (name : string) (p : value) : Prop :=
  exists x z c,
    p = VDict [("x", VFloat x); ("y", VFloat (pose_y i)); ("z", VFloat z);
               ("confidence", VFloat c); ("name", VStr name)]
    /\ within (lit 0.3) (lit 0.7) x
    /\ within (lit (-0.05)) (lit 0.05) z
    /\ within (lit 0.85) (lit 0.95) c.

(** The answer of pose detection with the given points. *)
Definition pose_answer (points : list value) : value :=
  VDict [("landmarks",
          VDict [("points", VList points);
                 ("averageConfidence", VFloat (lit 0.92))])].

(** The [x] of the first point of a pose answer, and the [height] of a
    measurement answer. *)
Definition first_x (resp : value) : option pyfloat :=
  match field "landmarks" resp with
  | Some l => match field "points" l with
              | Some (VList (p :: _)) => float_field "x" p
              | _ => None
              end
  | None => None
  end.

Definition height_of (resp : value) : option pyfloat :=
  match field "measurements" resp with
  | Some m => float_field "height" m
  | None => None
  end.

(** Two generators: every draw 0, and every draw [2^52] (the float 0.5). *)
Definition zero_draws : rng := {| draws := fun _ => 0%Z; pos := 0 |}.
Definition half_draws : rng := {| draws := fun _ => (2 ^ 52)%Z; pos := 0 |}.

(** The average of the per-point confidences, [sum(cs) / len(cs)]. *)
Definition confidences (points : list value) : list pyfloat :=
  flat_map (fun p => match float_field "confidence" p with
                     | Some c => [c]
                     | None => []
                     end) points.

Definition average (cs : list pyfloat) : pyfloat :=
  fdiv (fold_left fadd cs (Fin 0)) (of_int (Z.of_nat (List.length cs))).

(** The decision procedure of the classification, first match wins. *)
Definition first_match (waist_to_hip shoulder_to_hip : pyfloat) : string :=
  if flt waist_to_hip (lit 0.75) then "hourglass"
  else if fgt shoulder_to_hip (lit 0.5) then "inverted-triangle"
  else if fgt waist_to_hip (lit 0.85) then "rectangle"
  else "pear".

(** A measurement of the request, with the fallback of its key. *)
Definition measurement (m : dict) (key : string) (fallback : Z) : value :=
  match lookup key m with Some v => v | None => VInt fallback end.

(** A numeric measurement: a float, or an integer (a boolean is one) that
    fits a float. *)
Definition number (v : value) : Prop :=
  match v with
  | VBool _ | VFloat _ => True
  | VInt z => (Z.abs z <= big)%Z
  | _ => False
  end.

(** [v == 0] for a number. *)
Definition zero (v : value) : bool :=
  match v with
  | VBool b => negb b
  | VInt z => (z =? 0)%Z
  | VFloat f => is_zero f
  | _ => false
  end.

(** A classification request with integer measurements, and an answer. *)
Definition measurements_request (waist hip shoulder : Z) : value :=
  VDict [("measurements",
          VDict [("waistCircumference", VInt waist);
                 ("hipCircumference", VInt hip);
                 ("shoulderWidth", VInt shoulder)])].

Definition classification (body_type : string) : value :=
  VDict [("bodyType", VStr body_type); ("confidence", VFloat (lit 0.87))].

(** The four body types. *)
Definition body_types : list string :=
  ["hourglass"; "inverted-triangle"; "rectangle"; "pear"].

(** The url the handler derives: both replacements, one after the other. *)
Definition masked_url (url : string) : string :=
  str_replace (str_replace url ".jpg" "_masked.jpg") ".png" "_masked.png".

(** [old in s]: [old] occurs somewhere in [s]. *)
Fixpoint occurs (old s : string) : bool :=
  match s with
  | EmptyString => prefix old EmptyString
  | String _ s' => prefix old s || occurs old s'
  end.

(** A photo entry of a request with its [url] and [type], and the record
    the handler makes of it. *)
Definition has_url_type (p : value) (url : string) (type : value) : Prop :=
  exists d, p = VDict d /\ lookup "url" d = Some (VStr url)
                       /\ lookup "type" d = Some type.

Definition processed (url : string) (type : value) : value :=
  VDict [("url", VStr url); ("type", type); ("maskQuality", VFloat (lit 0.95))].

(** A photo entry that lacks [url] or [type]. *)
Definition malformed (p : value) : Prop :=
  exists d, p = VDict d /\ (lookup "url" d = None \/ lookup "type" d = None).

(** A client error is a status in the 4xx range. *)
Definition client_error (status : Z) : Prop := (400 <= status < 500)%Z.

(** The measurement dict of a metric answer, and of an imperial one, for
    the nine draws that follow the position of [g]. *)
Definition metric_measurements (unit : value) (g : rng) : dict :=
  let r k := draw g (k + pos g) in
  [("height", VFloat (stub_value 170 20 (r 0%nat)));
   ("shoulderWidth", VFloat (stub_value 40 10 (r 1%nat)));
   ("chestCircumference", VFloat (stub_value 90 15 (r 2%nat)));
   ("waistCircumference", VFloat (stub_value 75 15 (r 3%nat)));
   ("hipCircumference", VFloat (stub_value 95 15 (r 4%nat)));
   ("armLength", VFloat (stub_value 55 10 (r 5%nat)));
   ("inseam", VFloat (stub_value 75 10 (r 6%nat)));
   ("neckCircumference", VFloat (stub_value 35 5 (r 7%nat)));
   ("thighCircumference", VFloat (stub_value 50 10 (r 8%nat)));
   ("confidence", VFloat (lit 0.89));
   ("unit", unit)].

Definition imperial_measurements (unit : value) (g : rng) : dict :=
  let inch v := VFloat (fdiv v (lit 2.54)) in
  let r k := draw g (k + pos g) in
  [("height", inch (stub_value 170 20 (r 0%nat)));
   ("shoulderWidth", inch (stub_value 40 10 (r 1%nat)));
   ("chestCircumference", inch (stub_value 90 15 (r 2%nat)));
   ("waistCircumference", inch (stub_value 75 15 (r 3%nat)));
   ("hipCircumference", inch (stub_value 95 15 (r 4%nat)));
   ("armLength", inch (stub_value 55 10 (r 5%nat)));
   ("inseam", inch (stub_value 75 10 (r 6%nat)));
   ("neckCircumference", inch (stub_value 35 5 (r 7%nat)));
   ("thighCircumference", inch (stub_value 50 10 (r 8%nat)));
   ("confidence", VFloat (lit 0.89));
   ("unit", unit)].

(** *** Vocabulary of the further properties *)

(** A value [len] does not accept. *)
Definition unsized (v : value) : Prop :=
  match v with
  | VNone | VBool _ | VInt _ | VFloat _ => True
  | _ => False
  end.

(** A value arithmetic accepts. *)
Definition numeric (v : value) : bool :=
  match v with
  | VBool _ | VInt _ | VFloat _ => true
  | _ => false
  end.

(** The rational a measurement stands for, when it is a finite float or an
    integer below [2^53] in magnitude (which converts to a float exactly). *)
Definition exact (v : value) : option Q :=
  match v with
  | VBool b => Some (if b then 1 else 0)%Q
  | VInt z => if (Z.abs z <? 2 ^ 53)%Z then Some (inject_Z z) else None
  | VFloat (Fin q) => Some q
  | _ => None
  end.

(** Two generators agree on their next [n] draws. *)
Definition agree (n : nat) (g1 g2 : rng) : Prop :=
  forall k, (k < n)%nat -> draws g1 (k + pos g1) = draws g2 (k + pos g2).

(** The body of the loop of [remove_background]. *)
Definition process (photo : value) : result value :=
  (url <- getitem photo "url" ;;
   url <- replace url ".jpg" "_masked.jpg" ;;
   url <- replace url ".png" "_masked.png" ;;
   type <- getitem photo "type" ;;
   Ok (VDict [("url", url); ("type", type); ("maskQuality", VFloat (lit 0.95))]))%py.

End Spec.

(* ================================================================== *)
(** ** Rounding is monotone *)

Module Binary64Facts.
Import Binary64.
Open Scope Q_scope.

(** *** Powers of two *)

Lemma pow2_pos e : 0 < pow2 e.
Proof. apply Qpower_0_lt. reflexivity. Qed.

Lemma pow2_add a b : pow2 (a + b) == pow2 a * pow2 b.
Proof. apply Qpower_plus. discriminate. Qed.

Lemma pow2_le a b : (a <= b)%Z -> pow2 a <= pow2 b.
Proof. intros. apply Qpower_le_compat_l; [assumption | discriminate]. Qed.

Lemma pow2_lt a b : (a < b)%Z -> pow2 a < pow2 b.
Proof. intros. apply Qpower_lt_compat_l; [assumption | reflexivity]. Qed.

Lemma pow2_Z e : (0 <= e)%Z -> pow2 e == inject_Z (2 ^ e).
Proof. intros. unfold pow2. rewrite Zpower_Qpower by assumption. reflexivity. Qed.

Lemma pow2_S e : pow2 (e + 1) == 2 * pow2 e.
Proof. rewrite pow2_add. change (pow2 1) with 2. ring. Qed.

Lemma Qle_bool_false x y : Qle_bool x y = false -> y < x.
Proof.
  intros H. apply Qnot_le_lt. intros C. apply Qle_bool_iff in C. congruence.
Qed.

(** *** The binary logarithm *)

(** [n] lies in the binade of its [Z.log2]. *)
Lemma log2_bounds n : (0 < n)%Z ->
  pow2 (Z.log2 n) <= inject_Z n /\ inject_Z n < 2 * pow2 (Z.log2 n).
Proof.
  intros Hn. pose proof (Z.log2_spec n Hn) as [L U].
  pose proof (Z.log2_nonneg n) as Hnn.
  rewrite <- pow2_S. rewrite !pow2_Z by lia.
  rewrite <- Zle_Qle, <- Zlt_Qlt. split; [assumption|].
  replace (Z.log2 n + 1)%Z with (Z.succ (Z.log2 n)) by lia. assumption.
Qed.

(** [ilog2 q] is the exponent of the binade of [|q|]: [2^e <= |q| < 2^(e+1)]. *)
Lemma ilog2_spec q : ~ q == 0 ->
  pow2 (ilog2 q) <= Qabs q /\ Qabs q < pow2 (ilog2 q + 1).
Proof.
  intros Hq. destruct q as [n d].
  assert (Hn : (0 < Z.abs n)%Z).
  { destruct (Z.eq_dec n 0) as [->|]; [exfalso; apply Hq; reflexivity | lia]. }
  unfold ilog2.
  destruct (Qeq_bool (n # d) 0) eqn:E0; [apply Qeq_bool_iff in E0; contradiction|].
  cbn [Qnum Qden Qabs].
  set (a := Z.log2 (Z.abs n)). set (b := Z.log2 (Z.pos d)).
  destruct (log2_bounds _ Hn) as [La Ua]. fold a in La, Ua.
  destruct (log2_bounds (Z.pos d) eq_refl) as [Lb Ub]. fold b in Lb, Ub.
  assert (Hx : (Z.abs n # d) * inject_Z (Z.pos d) == inject_Z (Z.abs n)).
  { rewrite Qmake_Qdiv. field. discriminate. }
  set (x := Z.abs n # d) in *.
  assert (Hab : pow2 (a - b) * pow2 b == pow2 a).
  { rewrite <- pow2_add. replace (a - b + b)%Z with a by lia. reflexivity. }
  pose proof (pow2_pos (a - b)) as Pe. pose proof (pow2_pos b) as Pb.
  destruct (Qle_bool (pow2 (a - b)) x) eqn:E.
  - apply Qle_bool_iff in E. split; [assumption|].
    rewrite pow2_S. nra.
  - apply Qle_bool_false in E.
    replace (a - b - 1 + 1)%Z with (a - b)%Z by lia. split; [|assumption].
    assert (H2 : pow2 (a - b) == 2 * pow2 (a - b - 1)).
    { rewrite <- pow2_S. replace (a - b - 1 + 1)%Z with (a - b)%Z by lia. reflexivity. }
    nra.
Qed.

(** ... and the only such exponent. *)
Lemma ilog2_unique q e : pow2 e <= Qabs q -> Qabs q < pow2 (e + 1) -> ilog2 q = e.
Proof.
  intros L U.
  assert (Hq : ~ q == 0).
  { intros C. rewrite C in L. pose proof (pow2_pos e). cbn in L. lra. }
  destruct (ilog2_spec q Hq) as [L' U'].
  destruct (Z_lt_le_dec e (ilog2 q)) as [C|C].
  - pose proof (pow2_le (e + 1) (ilog2 q) ltac:(lia)). lra.
  - destruct (Z_lt_le_dec (ilog2 q) e) as [C'|C']; [|lia].
    pose proof (pow2_le (ilog2 q + 1) e ltac:(lia)). lra.
Qed.

(** It depends on the value of the rational only, not on the fraction. *)
Lemma ilog2_comp q1 q2 : q1 == q2 -> ilog2 q1 = ilog2 q2.
Proof.
  intros E. destruct (Qeq_dec q2 0) as [Z|NZ].
  - assert (Z1 : q1 == 0) by (rewrite E; exact Z).
    unfold ilog2. apply Qeq_bool_iff in Z, Z1. rewrite Z, Z1. reflexivity.
  - destruct (ilog2_spec q2 NZ) as [L U]. apply ilog2_unique; rewrite E; assumption.
Qed.

Lemma ilog2_opp q : ilog2 (- q) = ilog2 q.
Proof.
  destruct (Qeq_dec q 0) as [Z|NZ].
  - apply ilog2_comp. rewrite Z. reflexivity.
  - destruct (ilog2_spec q NZ) as [L U]. apply ilog2_unique; rewrite Qabs_opp; assumption.
Qed.

Lemma ilog2_mono q1 q2 : 0 < q1 -> q1 <= q2 -> (ilog2 q1 <= ilog2 q2)%Z.
Proof.
  intros P H.
  destruct (ilog2_spec q1 ltac:(lra)) as [L1 U1].
  destruct (ilog2_spec q2 ltac:(lra)) as [L2 U2].
  rewrite Qabs_pos in * by lra.
  destruct (Z_lt_le_dec (ilog2 q2) (ilog2 q1)) as [C|C]; [|assumption].
  pose proof (pow2_le (ilog2 q2 + 1) (ilog2 q1) ltac:(lia)). lra.
Qed.

(** *** Rounding to the nearest integer *)

Lemma rne_bounds q : (Qfloor q <= rne q <= Qfloor q + 1)%Z.
Proof.
  unfold rne. destruct (Qcompare _ _); [destruct (Z.even _)| |]; lia.
Qed.

Lemma rne_Z n : rne (inject_Z n) = n.
Proof.
  unfold rne. rewrite Qfloor_Z.
  destruct (Qcompare_spec (inject_Z n - inject_Z n) (1 # 2)); [lra | reflexivity | lra].
Qed.

Lemma rne_comp q1 q2 : q1 == q2 -> rne q1 = rne q2.
Proof.
  intros E. unfold rne. rewrite (Qfloor_comp _ _ E).
  assert (E' : q1 - inject_Z (Qfloor q2) == q2 - inject_Z (Qfloor q2)) by (rewrite E; reflexivity).
  rewrite E'. reflexivity.
Qed.

(** Rounding to the nearest integer is monotone. *)
Lemma rne_mono q1 q2 : q1 <= q2 -> (rne q1 <= rne q2)%Z.
Proof.
  intros H. pose proof (Qfloor_resp_le _ _ H) as F.
  destruct (Z.eq_dec (Qfloor q1) (Qfloor q2)) as [E|N].
  - unfold rne. rewrite E.
    destruct (Qcompare_spec (q1 - inject_Z (Qfloor q2)) (1 # 2));
    destruct (Qcompare_spec (q2 - inject_Z (Qfloor q2)) (1 # 2));
    try destruct (Z.even _); try lia; lra.
  - pose proof (rne_bounds q1). pose proof (rne_bounds q2). lia.
Qed.

Lemma Qfloor_opp_nonint q : inject_Z (Qfloor q) < q -> Qfloor (- q) = (- Qfloor q - 1)%Z.
Proof.
  intros H. pose proof (Qlt_floor q) as U. pose proof (Qfloor_le (- q)) as L'.
  pose proof (Qlt_floor (- q)) as U'.
  rewrite inject_Z_plus in U, U'. change (inject_Z 1) with 1 in *.
  assert (A : (Qfloor (- q) < - Qfloor q)%Z).
  { rewrite Zlt_Qlt. rewrite inject_Z_opp. lra. }
  assert (B : (- Qfloor q - 2 < Qfloor (- q))%Z).
  { rewrite Zlt_Qlt. replace (- Qfloor q - 2)%Z with (- (Qfloor q + 2))%Z by lia.
    rewrite inject_Z_opp, inject_Z_plus. change (inject_Z 2) with 2. lra. }
  lia.
Qed.

(** Ties go to the even integer on both sides of zero: rounding is odd. *)
Lemma rne_opp q : rne (- q) = (- rne q)%Z.
Proof.
  destruct (Qlt_le_dec (inject_Z (Qfloor q)) q) as [H|H].
  - unfold rne. rewrite (Qfloor_opp_nonint q H).
    pose proof (Qlt_floor q) as U. rewrite inject_Z_plus in U. change (inject_Z 1) with 1 in U.
    set (f := Qfloor q) in *.
    assert (Ef : inject_Z (- f - 1) == - inject_Z f - 1).
    { replace (- f - 1)%Z with (- (f + 1))%Z by lia.
      rewrite inject_Z_opp, inject_Z_plus. change (inject_Z 1) with 1. ring. }
    assert (Ev : Z.even (- f - 1) = negb (Z.even f)).
    { replace (- f - 1)%Z with (- (f + 1))%Z by lia. rewrite Z.even_opp.
      rewrite Z.add_1_r, Z.even_succ, <- Z.negb_even. reflexivity. }
    destruct (Qcompare_spec (q - inject_Z f) (1 # 2));
    destruct (Qcompare_spec (- q - inject_Z (- f - 1)) (1 # 2));
    rewrite ?Ev; try destruct (Z.even f); cbn [negb]; try lia; lra.
  - assert (E : q == inject_Z (Qfloor q)) by (pose proof (Qfloor_le q); lra).
    rewrite (rne_comp q _ E), (rne_comp (- q) (inject_Z (- Qfloor q))).
    + rewrite !rne_Z. reflexivity.
    + rewrite inject_Z_opp, <- E. reflexivity.
Qed.

(** *** Rounding to the format *)

Lemma round_spec q : round q == inject_Z (rne (q / pow2 (cexp q))) * pow2 (cexp q).
Proof. unfold round. cbv zeta. apply Qred_correct. Qed.

Lemma cexp_comp q1 q2 : q1 == q2 -> cexp q1 = cexp q2.
Proof. intros E. unfold cexp. rewrite (ilog2_comp _ _ E). reflexivity. Qed.

(** Equal rationals round to the same term. *)
Lemma round_comp q1 q2 : q1 == q2 -> round q1 = round q2.
Proof.
  intros E. unfold round. cbv zeta. apply Qred_complete.
  rewrite (cexp_comp _ _ E).
  rewrite (rne_comp (q1 / pow2 (cexp q2)) (q2 / pow2 (cexp q2))); [reflexivity|].
  rewrite E. reflexivity.
Qed.

Lemma cexp_opp q : cexp (- q) = cexp q.
Proof. unfold cexp. rewrite ilog2_opp. reflexivity. Qed.

Lemma round_opp q : round (- q) == - round q.
Proof.
  rewrite !round_spec, cexp_opp.
  rewrite (rne_comp (- q / pow2 (cexp q)) (- (q / pow2 (cexp q)))).
  - rewrite rne_opp, inject_Z_opp. ring.
  - field. pose proof (pow2_pos (cexp q)). lra.
Qed.

Lemma scale_le q1 q2 e : q1 <= q2 -> q1 / pow2 e <= q2 / pow2 e.
Proof.
  intros H. unfold Qdiv. apply Qmult_le_compat_r; [assumption|].
  apply Qlt_le_weak, Qinv_lt_0_compat, pow2_pos.
Qed.

Lemma scale_pow2 L e : (e <= L)%Z -> pow2 L / pow2 e == inject_Z (2 ^ (L - e)).
Proof.
  intros H. rewrite <- pow2_Z by lia.
  replace L with ((L - e) + e)%Z at 1 by lia. rewrite pow2_add.
  field. pose proof (pow2_pos e). lra.
Qed.

Lemma unscale_pow2 L e : (e <= L)%Z -> inject_Z (2 ^ (L - e)) * pow2 e == pow2 L.
Proof.
  intros H. rewrite <- pow2_Z by lia. rewrite <- pow2_add.
  replace (L - e + e)%Z with L by lia. reflexivity.
Qed.

(** Rounding does not cross a power of two that the last place of [q]
    can represent. *)
Lemma round_ge_pow2 q L : (cexp q <= L)%Z -> pow2 L <= q -> pow2 L <= round q.
Proof.
  intros He Hq. rewrite round_spec. set (e := cexp q) in *.
  rewrite <- (unscale_pow2 L e He).
  apply Qmult_le_compat_r; [|apply Qlt_le_weak, pow2_pos].
  rewrite <- Zle_Qle. rewrite <- (rne_Z (2 ^ (L - e))).
  apply rne_mono. rewrite <- scale_pow2 by assumption. apply scale_le. assumption.
Qed.

Lemma round_le_pow2 q L : (cexp q <= L)%Z -> q <= pow2 L -> round q <= pow2 L.
Proof.
  intros He Hq. rewrite round_spec. set (e := cexp q) in *.
  rewrite <- (unscale_pow2 L e He).
  apply Qmult_le_compat_r; [|apply Qlt_le_weak, pow2_pos].
  rewrite <- Zle_Qle.
  apply Z.le_trans with (rne (inject_Z (2 ^ (L - e)))); [|rewrite rne_Z; lia].
  apply rne_mono. rewrite <- scale_pow2 by assumption. apply scale_le. assumption.
Qed.

(** Monotonicity on the positive rationals: in one binade by [rne_mono],
    across binades through the power of two between them. *)
Lemma round_pos_mono q1 q2 : 0 < q1 -> q1 <= q2 -> round q1 <= round q2.
Proof.
  intros P H. pose proof (ilog2_mono q1 q2 P H) as HL.
  destruct (Z.eq_dec (cexp q1) (cexp q2)) as [E|N].
  - rewrite !round_spec, E.
    apply Qmult_le_compat_r; [|apply Qlt_le_weak, pow2_pos].
    rewrite <- Zle_Qle. apply rne_mono, scale_le, H.
  - destruct (ilog2_spec q1 ltac:(lra)) as [L1 U1].
    destruct (ilog2_spec q2 ltac:(lra)) as [L2 U2].
    rewrite Qabs_pos in * by lra.
    assert (C : (ilog2 q1 < ilog2 q2)%Z) by (unfold cexp in N; lia).
    pose proof (pow2_le (ilog2 q1 + 1) (ilog2 q2) ltac:(lia)) as HB.
    apply Qle_trans with (pow2 (ilog2 q2)).
    + apply round_le_pow2; [unfold cexp in *; lia | lra].
    + apply round_ge_pow2; [unfold cexp in *; lia | assumption].
Qed.

Lemma round_0 : round 0 = 0.
Proof. reflexivity. Qed.

Lemma round_nonneg q : 0 <= q -> 0 <= round q.
Proof.
  intros H. rewrite round_spec.
  apply Qmult_le_0_compat; [|apply Qlt_le_weak, pow2_pos].
  change 0 with (inject_Z 0). rewrite <- Zle_Qle.
  change 0%Z with (rne 0). apply rne_mono.
  apply Qle_shift_div_l; [apply pow2_pos | lra].
Qed.

(** Rounding to nearest is monotone. *)
Theorem round_mono q1 q2 : q1 <= q2 -> round q1 <= round q2.
Proof.
  intros H. destruct (Qlt_le_dec 0 q1) as [P1|N1].
  - apply round_pos_mono; assumption.
  - destruct (Qlt_le_dec q2 0) as [N2|P2].
    + assert (A : round (- q2) <= round (- q1)) by (apply round_pos_mono; lra).
      rewrite !round_opp in A. lra.
    + pose proof (round_nonneg q2 P2).
      assert (A : 0 <= round (- q1)) by (apply round_nonneg; lra).
      rewrite round_opp in A. lra.
Qed.

End Binary64Facts.

(* ================================================================== *)
(** ** Ranges of the values computed from a draw *)

Module RangeFacts.
Import Binary64 Binary64Facts Py Random App Spec.
Open Scope Q_scope.

(** A rational between two rationals that round to finite floats rounds to
    a finite float between them. *)
Lemma of_Q_between q lo hi a b :
  lo <= q -> q <= hi -> of_Q lo = Fin a -> of_Q hi = Fin b ->
  exists c, of_Q q = Fin c /\ a <= c /\ c <= b.
Proof.
  unfold of_Q. cbv zeta. intros L H A B.
  destruct (Qle_bool (Qabs (round lo)) max_finite) eqn:El; [|discriminate].
  destruct (Qle_bool (Qabs (round hi)) max_finite) eqn:Eh; [|discriminate].
  injection A as <-. injection B as <-.
  apply Qle_bool_iff, Qabs_Qle_condition in El, Eh.
  pose proof (round_mono _ _ L). pose proof (round_mono _ _ H).
  assert (E : Qle_bool (Qabs (round q)) max_finite = true).
  { apply Qle_bool_iff, Qabs_Qle_condition. split; lra. }
  rewrite E. exists (round q). auto.
Qed.

Lemma of_Q_comp q1 q2 : q1 == q2 -> of_Q q1 = of_Q q2.
Proof. intros E. unfold of_Q. rewrite (round_comp _ _ E). reflexivity. Qed.

(** A draw is a finite float in [[0, 1 - 2^-53]]. *)
Lemma draw_range g i : valid g ->
  exists r, draw g i = Fin r /\ 0 <= r /\ r <= rmax.
Proof.
  intros V. destruct (V i) as [L U]. unfold draw.
  exists (Qred (draws g i # 2 ^ 53)). split; [reflexivity|].
  rewrite Qred_correct. unfold rmax, Qle. cbn [Qnum Qden]. split; lia.
Qed.

(** [a + r * s] for a draw [r] lies between its values at the least and at
    the greatest draw. *)
Lemma scale_shift_range (a s : pyfloat) (qa qs p1 y0 y1 : Q) g i :
  valid g -> a = Fin qa -> s = Fin qs -> 0 <= qs ->
  of_Q (rmax * qs) = Fin p1 -> of_Q (qa + 0) = Fin y0 -> of_Q (qa + p1) = Fin y1 ->
  exists y, fadd a (fmul (draw g i) s) = Fin y /\ y0 <= y /\ y <= y1.
Proof.
  intros V -> -> Hs P1 Y0 Y1.
  destruct (draw_range g i V) as (r & -> & R0 & R1).
  cbn [fmul].
  destruct (of_Q_between (r * qs) (0 * qs) (rmax * qs) 0 p1) as (p & -> & Lp & Up);
    [nra | nra | reflexivity | assumption |].
  cbn [fadd].
  apply (of_Q_between (qa + p) (qa + 0) (qa + p1)); [lra | lra | assumption..].
Qed.

(** The same for [r * s - c]. *)
Lemma scale_unshift_range (s c : pyfloat) (qs qc p1 y0 y1 : Q) g i :
  valid g -> s = Fin qs -> c = Fin qc -> 0 <= qs ->
  of_Q (rmax * qs) = Fin p1 -> of_Q (0 - qc) = Fin y0 -> of_Q (p1 - qc) = Fin y1 ->
  exists y, fsub (fmul (draw g i) s) c = Fin y /\ y0 <= y /\ y <= y1.
Proof.
  intros V -> -> Hs P1 Y0 Y1.
  destruct (draw_range g i V) as (r & -> & R0 & R1).
  cbn [fmul].
  destruct (of_Q_between (r * qs) (0 * qs) (rmax * qs) 0 p1) as (p & -> & Lp & Up);
    [nra | nra | reflexivity | assumption |].
  cbn [fsub].
  apply (of_Q_between (p - qc) (0 - qc) (p1 - qc)); [lra | lra | assumption..].
Qed.

(** Bounds on the rational of a finite float are bounds on the float. *)
Lemma within_Fin lo hi a b y :
  lo = Fin a -> hi = Fin b -> a <= y -> y <= b -> within lo hi (Fin y).
Proof.
  intros -> -> L U. split; cbn [fle]; apply Qle_bool_iff; assumption.
Qed.

Ltac closed := vm_compute; first [reflexivity | discriminate].

Ltac bounded L U :=
  eapply within_Fin; [closed | closed | eapply Qle_trans; [|exact L]; closed
                     | eapply Qle_trans; [exact U|]; closed].

(** The coordinates of a landmark point are within their ranges: each is
    monotone in its draw, and the ranges hold at the two extreme draws. *)
Lemma pose_x_range g i : valid g ->
  exists x, pose_x (draw g i) = Fin x /\ within (lit 0.3) (lit 0.7) (Fin x).
Proof.
  intros V.
  destruct (scale_shift_range (lit 0.3) (lit 0.4) _ _ _ _ _ g i V
              ltac:(closed) ltac:(closed) ltac:(closed) ltac:(closed) ltac:(closed)
              ltac:(closed)) as (y & E & L & U).
  exists y. split; [exact E | bounded L U].
Qed.

Lemma pose_z_range g i : valid g ->
  exists z, pose_z (draw g i) = Fin z /\ within (lit (-0.05)) (lit 0.05) (Fin z).
Proof.
  intros V.
  destruct (scale_unshift_range (lit 0.1) (lit 0.05) _ _ _ _ _ g i V
              ltac:(closed) ltac:(closed) ltac:(closed) ltac:(closed) ltac:(closed)
              ltac:(closed)) as (y & E & L & U).
  exists y. split; [exact E | bounded L U].
Qed.

Lemma pose_confidence_range g i : valid g ->
  exists c, pose_confidence (draw g i) = Fin c /\ within (lit 0.85) (lit 0.95) (Fin c).
Proof.
  intros V.
  destruct (scale_shift_range (lit 0.85) (lit 0.1) _ _ _ _ _ g i V
              ltac:(closed) ltac:(closed) ltac:(closed) ltac:(closed) ltac:(closed)
              ltac:(closed)) as (y & E & L & U).
  exists y. split; [exact E | bounded L U].
Qed.

Lemma fdiv_Fin a b : Qeq_bool b 0 = false -> fdiv (Fin a) (Fin b) = of_Q (a / b).
Proof. intros H. cbn [fdiv]. rewrite H. reflexivity. Qed.

(** A value between [lo] and [hi] centimetres is, in inches, between the
    bounds in inches, and below its value in centimetres whenever
    [hi / 2.54] is below [lo]. *)
Lemma inches_range (lo hi t0 t1 y c : Q) :
  lit 2.54 = Fin c -> 0 < c -> lo <= y -> y <= hi ->
  of_Q (lo / c) = Fin t0 -> of_Q (hi / c) = Fin t1 -> t1 < lo ->
  exists t, fdiv (Fin y) (lit 2.54) = Fin t /\ t0 <= t /\ t <= t1 /\ t < y.
Proof.
  intros -> Hc L U T0 T1 B.
  rewrite fdiv_Fin
    by (destruct (Qeq_bool c 0) eqn:E; [apply Qeq_bool_iff in E; lra | reflexivity]).
  assert (I : 0 < / c) by (apply Qinv_lt_0_compat, Hc).
  destruct (of_Q_between (y / c) (lo / c) (hi / c) t0 t1) as (t & E & A & A');
    [unfold Qdiv; nra | unfold Qdiv; nra | assumption | assumption |].
  exists t. repeat split; [exact E | exact A | exact A' | lra].
Qed.

(** A stub measurement lies in its metric range, and its value in inches in
    that range in inches, strictly below the metric value. *)
Lemma stub_value_range key lo hi g i :
  valid g -> In (key, (lo, hi)) metric_ranges ->
  exists y, stub_value lo (hi - lo) (draw g i) = Fin y
    /\ within (of_int lo) (of_int hi) (Fin y)
    /\ exists t, fdiv (Fin y) (lit 2.54) = Fin t
         /\ within (fdiv (of_int lo) (lit 2.54)) (fdiv (of_int hi) (lit 2.54)) (Fin t)
         /\ flt (Fin t) (Fin y) = true.
Proof.
  intros V H. unfold stub_value.
  repeat (destruct H as [H|H]; [injection H as <- <- <-|]); [..|destruct H].
  all: match goal with
       | |- exists y, fadd (of_int ?lo) (fmul _ (of_int ?span)) = _ /\ _ =>
           destruct (scale_shift_range (of_int lo) (of_int span) _ _ _ _ _ g i V
                       ltac:(closed) ltac:(closed) ltac:(closed) ltac:(closed)
                       ltac:(closed) ltac:(closed)) as (y & E & L & U)
       end;
    exists y; (split; [exact E|]); (split; [bounded L U|]);
    destruct (inches_range _ _ _ _ y _ ltac:(closed) ltac:(closed) L U
                ltac:(closed) ltac:(closed) ltac:(closed)) as (t & Et & T0 & T1 & Ty);
    exists t; (split; [exact Et|]); (split; [bounded T0 T1|]);
    cbn [flt]; destruct (Qle_bool y t) eqn:C; [apply Qle_bool_iff in C; lra | reflexivity].
Qed.
End RangeFacts.

(* ================================================================== *)
(** ** str.replace and the derived url *)

Module StringFacts.
Import Py Spec.
Open Scope string_scope.

Lemma append_assoc (a b c : string) : (a ++ b) ++ c = a ++ (b ++ c).
Proof. induction a as [|x a IH]; cbn; [reflexivity | rewrite IH; reflexivity]. Qed.

(** A string shorter than [old] does not start with it, and whether a
    string at least as long starts with it does not depend on what follows. *)
Lemma prefix_short old t : (String.length t < String.length old)%nat -> prefix old t = false.
Proof.
  revert t. induction old as [|a old IH]; intros t H; [cbn in H; lia|].
  destruct t as [|b t]; [reflexivity|]. cbn [prefix].
  destruct (ascii_dec a b); [|reflexivity]. apply IH. cbn in H. lia.
Qed.

Lemma prefix_app_long old t suf :
  (String.length old <= String.length t)%nat -> prefix old (t ++ suf) = prefix old t.
Proof.
  revert t. induction old as [|a old IH]; intros t H;
    [destruct t; [destruct suf|]; reflexivity|].
  destruct t as [|b t]; [cbn in H; lia|]. cbn [append prefix].
  destruct (ascii_dec a b); [|reflexivity]. apply IH. cbn in H. lia.
Qed.

Section Replace.
Variables old new suf : string.
Hypothesis old_nonempty : old <> "".
(** No occurrence of [old] begins in the last characters of a string and
    ends inside the [suf] that follows it. *)
Hypothesis no_straddle : forall u,
  (0 < String.length u < String.length old)%nat -> prefix old (u ++ suf) = false.

(** The scan of [t ++ suf] is the scan of [t] followed by the scan of
    [suf]. *)
Lemma replace_from_app t : forall skip, (skip <= String.length t)%nat ->
  replace_from old new skip (t ++ suf)
  = replace_from old new skip t ++ replace_from old new 0 suf.
Proof.
  induction t as [|c t IH]; intros skip H.
  - cbn in H. assert (skip = 0)%nat as -> by lia. reflexivity.
  - destruct skip as [|k].
    + cbn [append]. cbn [replace_from].
      change (String c (t ++ suf)) with (String c t ++ suf).
      destruct (le_lt_dec (String.length old) (String.length (String c t))) as [L|S].
      * rewrite (prefix_app_long old (String c t) suf L).
        destruct (prefix old (String c t)).
        -- rewrite IH by (cbn in L; lia). rewrite append_assoc. reflexivity.
        -- rewrite IH by lia. reflexivity.
      * rewrite (no_straddle (String c t)) by (cbn; cbn in S; lia).
        rewrite (prefix_short old (String c t) S).
        rewrite IH by lia. reflexivity.
    + cbn [append replace_from]. apply IH. cbn in H. lia.
Qed.

(** A string without an occurrence is left as it is. *)
Lemma replace_clean t : occurs old t = false -> replace_from old new 0 t = t.
Proof.
  induction t as [|c t IH]; intros H; [reflexivity|].
  cbn [occurs] in H. apply orb_false_iff in H as [P O].
  cbn [replace_from]. rewrite P, (IH O). reflexivity.
Qed.
End Replace.

Ltac no_straddle :=
  let u := fresh "u" in let H := fresh "H" in
  intros u H;
  destruct u as [|? [|? [|? [|? u]]]]; cbn [String.length] in H; try lia;
  cbn [append prefix];
  repeat match goal with
         | |- context [ascii_dec ?a ?b] => destruct (ascii_dec a b); try reflexivity
         end.

Lemma str_replace_app old new t suf :
  old <> "" ->
  (forall u, (0 < String.length u < String.length old)%nat -> prefix old (u ++ suf) = false) ->
  str_replace (t ++ suf) old new = str_replace t old new ++ str_replace suf old new.
Proof.
  intros N S. unfold str_replace. destruct old as [|a old]; [congruence|].
  apply replace_from_app; [assumption | lia].
Qed.

(** The derived url of [stem ++ ".jpg"] and of [stem ++ ".png"]: neither
    pattern has an occurrence across the end of the stem, so the extension
    is rewritten whatever the stem holds. *)
Lemma masked_url_jpg stem : masked_url (stem ++ ".jpg") = masked_url stem ++ "_masked.jpg".
Proof.
  unfold masked_url.
  rewrite (str_replace_app ".jpg" "_masked.jpg" stem ".jpg"); [|discriminate|no_straddle].
  change (str_replace ".jpg" ".jpg" "_masked.jpg") with "_masked.jpg".
  rewrite (str_replace_app ".png" "_masked.png" _ "_masked.jpg"); [|discriminate|no_straddle].
  reflexivity.
Qed.

Lemma masked_url_png stem : masked_url (stem ++ ".png") = masked_url stem ++ "_masked.png".
Proof.
  unfold masked_url.
  rewrite (str_replace_app ".jpg" "_masked.jpg" stem ".png"); [|discriminate|no_straddle].
  change (str_replace ".png" ".jpg" "_masked.jpg") with ".png".
  rewrite (str_replace_app ".png" "_masked.png" _ ".png"); [|discriminate|no_straddle].
  reflexivity.
Qed.

Lemma masked_url_clean stem :
  occurs ".jpg" stem = false -> occurs ".png" stem = false -> masked_url stem = stem.
Proof.
  intros J P. unfold masked_url, str_replace.
  rewrite (replace_clean ".jpg" "_masked.jpg" stem J).
  apply replace_clean, P.
Qed.
End StringFacts.

(* ================================================================== *)
(** ** What the handlers return *)

Module ShapeFacts.
Import Binary64 Binary64Facts Py Random App Spec.
Open Scope string_scope.

(** A stub measurement takes one draw and cannot raise. *)
Lemma stub_measurement_eq lo span g :
  to_float (NInt lo) = Ok (of_int lo) -> to_float (NInt span) = Ok (of_int span) ->
  stub_measurement lo span g
  = Ok (VFloat (stub_value lo span (draw g (pos g))), next g).
Proof.
  intros Hlo Hspan.
  unfold stub_measurement, bindM, random, lift, ret, stub_value.
  unfold mul, float_op. cbv beta iota. rewrite Hspan. cbn [bind to_float].
  unfold add, float_op. cbv beta iota. rewrite Hlo. reflexivity.
Qed.

(** Division of a float by the literal 2.54 cannot raise. *)
Lemma truediv_by_literal v :
  truediv_values (VFloat v) (VFloat (lit 2.54)) = Ok (fdiv v (lit 2.54)).
Proof.
  unfold truediv_values, truediv. cbn [as_num bind to_float].
  replace (is_zero (lit 2.54)) with false by (vm_compute; reflexivity).
  reflexivity.
Qed.

Ltac stub_step :=
  rewrite stub_measurement_eq by (vm_compute; reflexivity); cbv beta iota.

(** The answer of measurement extraction, for a metric and for an imperial
    request: nine draws, then the conversion loop when the flag says so. *)
Lemma extract_metric d g :
  eq_str (request_unit d) "imperial" = false ->
  extract_measurements (VDict d) g
  = Ok (VDict [("measurements", VDict (metric_measurements (request_unit d) g))],
        advance 9 g).
Proof.
  intros U. unfold extract_measurements, bindM at 1 2. cbn [lift get].
  fold (request_unit d).
  unfold bindM. do 9 stub_step.
  rewrite U. reflexivity.
Qed.

Lemma extract_imperial d g :
  eq_str (request_unit d) "imperial" = true ->
  extract_measurements (VDict d) g
  = Ok (VDict [("measurements", VDict (imperial_measurements (request_unit d) g))],
        advance 9 g).
Proof.
  intros U. unfold extract_measurements, bindM at 1 2. cbn [lift get].
  fold (request_unit d).
  unfold bindM. do 9 stub_step.
  rewrite U.
  unfold length_keys.
  do 9 (cbn [convert]; unfold to_imperial at 1;
        cbn [dict_mem lookup String.eqb Ascii.eqb Bool.eqb getitem bind];
        rewrite truediv_by_literal;
        cbn [bind dict_set String.eqb Ascii.eqb Bool.eqb]).
  reflexivity.
Qed.
End ShapeFacts.

Module PoseFacts.
Import Binary64 Binary64Facts Py Random App Spec RangeFacts.
Open Scope string_scope.

(** [i / 33] for an index of the landmark list cannot raise. *)
Lemma index_over_33 i : (i < 33)%nat ->
  truediv (NInt (Z.of_nat i)) (NInt 33) = Ok (of_Q (inject_Z (Z.of_nat i) / 33)).
Proof.
  intros H. unfold truediv. cbn [Z.eqb].
  destruct (of_Q_between (inject_Z (Z.of_nat i) / 33) 0 1 0 1) as (c & E & _);
    [ | | reflexivity | reflexivity | ].
  - apply Qle_shift_div_l; [reflexivity|]. rewrite Qmult_0_l.
    change 0%Q with (inject_Z 0). rewrite <- Zle_Qle. lia.
  - apply Qle_shift_div_r; [reflexivity|]. rewrite Qmult_1_l.
    change 33%Q with (inject_Z 33). rewrite <- Zle_Qle. lia.
  - change (inject_Z 33) with 33%Q. rewrite E. reflexivity.
Qed.

(** One iteration of the loop of [detect_pose] takes three draws. *)
Lemma pose_point_eq i name g : (i < 33)%nat ->
  pose_point i name g = Ok (point_at g i name, advance 3 g).
Proof.
  intros H. unfold pose_point, bindM, random, lift, ret.
  rewrite (index_over_33 i H).
  unfold mul, add, sub, float_op. cbn [bind to_float of_num].
  unfold point_at, pose_x, pose_y, pose_z, pose_confidence, advance, next, draw.
  cbn [draws pos]. reflexivity.
Qed.

Lemma for_eachM_points l s g : (s + List.length l <= 33)%nat ->
  for_eachM (fun '(i, name) => pose_point i name) (combine (seq s (List.length l)) l) g
  = Ok (points_from g (combine (seq s (List.length l)) l),
        advance (3 * List.length l) g).
Proof.
  revert s g. induction l as [|name l IH]; intros s g H.
  - destruct g. reflexivity.
  - cbn [List.length seq combine for_eachM points_from]. unfold bindM at 1.
    cbn [List.length] in H.
    rewrite pose_point_eq by lia. unfold bindM at 1.
    rewrite IH by lia. unfold ret. f_equal. f_equal.
    unfold advance. cbn [draws pos]. f_equal. lia.
Qed.

(** The answer of pose detection for a request whose photos are a list. *)
Lemma detect_pose_eq d photos g :
  request_photos d = VList photos ->
  detect_pose (VDict d) g
  = Ok (VDict [("landmarks",
                VDict [("points", VList (points_from g (enumerate landmark_names)));
                       ("averageConfidence", VFloat (lit 0.92))])],
        advance 99 g).
Proof.
  intros P. unfold detect_pose, bindM at 1 2. cbn [lift get]. fold (request_photos d).
  rewrite P. cbn [len lift]. unfold bindM, enumerate.
  rewrite for_eachM_points by (cbn; lia). reflexivity.
Qed.

(** The [i]-th point has the [i]-th name and the draws [3i], [3i+1], [3i+2]
    after the position of the generator. *)
Lemma nth_points l : forall s g i name,
  nth_error l i = Some name ->
  nth_error (points_from g (combine (seq s (List.length l)) l)) i
  = Some (point_at (advance (3 * i) g) (s + i) name).
Proof.
  induction l as [|n l IH]; intros s g i name H.
  - destruct i; discriminate.
  - destruct i as [|i]; cbn [List.length seq combine points_from nth_error] in *.
    + injection H as <-. destruct g. unfold advance. cbn. rewrite Nat.add_0_r. reflexivity.
    + rewrite (IH (S s) (advance 3 g) i name H). f_equal.
      unfold point_at, advance. cbn [draws pos draw].
      replace (S s + i)%nat with (s + S i)%nat by lia.
      replace (3 * i + (3 + pos g))%nat with (3 * S i + pos g)%nat by lia.
      reflexivity.
Qed.

(** [y] increases strictly over the 33 indices (all pairs are evaluated). *)
Lemma pose_y_increasing i j : (i < j < 33)%nat -> flt (pose_y i) (pose_y j) = true.
Proof.
  intros H.
  assert (A : forallb (fun i => forallb (fun j => implb (i <? j)%nat (flt (pose_y i) (pose_y j)))
                                 (seq 0 33)) (seq 0 33) = true) by (vm_compute; reflexivity).
  rewrite forallb_forall in A. specialize (A i ltac:(apply in_seq; lia)).
  rewrite forallb_forall in A. specialize (A j ltac:(apply in_seq; lia)).
  destruct (Nat.ltb_spec i j); [exact A | lia].
Qed.
End PoseFacts.

Module HandlerFacts.
Import Binary64 Binary64Facts Py Random App Spec RangeFacts.
Open Scope string_scope.

(** *** Loops *)

(** A loop whose body succeeds on every element maps the list; a loop with
    an element on which the body raises, raises. *)
Lemma for_each_map {A B C} (f : A -> result B) (h : C -> B) (R : A -> C -> Prop) :
  (forall a c, R a c -> f a = Ok (h c)) ->
  forall l cs, Forall2 R l cs -> for_each f l = Ok (map h cs).
Proof.
  intros Hf l cs F. induction F as [|a c l cs Hac _ IH]; [reflexivity|].
  cbn [for_each map]. rewrite (Hf a c Hac). cbn [bind]. rewrite IH. reflexivity.
Qed.

Lemma for_each_raises {A B} (f : A -> result B) (P : A -> Prop) :
  (forall a, P a -> exists e, f a = Raise e) ->
  forall l, Exists P l -> exists e, for_each f l = Raise e.
Proof.
  intros Hf l E. induction E as [a l Pa | a l _ (e & IH)]; cbn [for_each].
  - destruct (Hf a Pa) as (e & ->). exists e. reflexivity.
  - destruct (f a) as [b|e']; cbn [bind]; [|exists e'; reflexivity].
    rewrite IH. exists e. reflexivity.
Qed.

(** *** Background removal *)

(** The answer of background removal for photos that have [url] and
    [type]. *)
Lemma remove_background_eq d photos entries :
  request_photos d = VList photos ->
  Forall2 (fun p e => has_url_type p (fst e) (snd e)) photos entries ->
  remove_background (VDict d)
  = Ok (VDict [("processedPhotos",
                VList (map (fun e => processed (masked_url (fst e)) (snd e)) entries))]).
Proof.
  intros P F. unfold remove_background. cbn [get bind]. fold (request_photos d).
  rewrite P. cbn [len iter bind].
  erewrite for_each_map; [reflexivity | | exact F].
  intros p [url type] (pd & -> & U & T). cbn [fst snd] in *.
  cbn [getitem]. rewrite U. cbn [bind replace]. rewrite T. reflexivity.
Qed.

(** An entry without [url] or [type] makes the handler raise. *)
Lemma remove_background_malformed d photos :
  request_photos d = VList photos -> Exists malformed photos ->
  exists e, remove_background (VDict d) = Raise e.
Proof.
  intros P E. unfold remove_background. cbn [get bind]. fold (request_photos d).
  rewrite P. cbn [len iter bind].
  match goal with |- context [for_each ?f photos] =>
    destruct (for_each_raises f malformed) with (l := photos) as (e & ->);
      [ | exact E | exists e; reflexivity ] end.
  intros p (pd & -> & [U|T]); cbn [getitem].
  - rewrite U. exists KeyError. reflexivity.
  - destruct (lookup "url" pd) as [u|]; cbn [bind]; [|exists KeyError; reflexivity].
    destruct u; cbn [replace bind]; try (exists AttributeError; reflexivity).
    rewrite T. exists KeyError. reflexivity.
Qed.

(** *** True division *)

Open Scope Q_scope.

(** A rational within the finite range rounds to a finite float. *)
Lemma of_Q_fits q : - inject_Z big <= q -> q <= inject_Z big ->
  exists c, of_Q q = Fin c.
Proof.
  intros L U.
  destruct (of_Q_between q (- inject_Z big) (inject_Z big)
              (Qred (- inject_Z big)) (inject_Z big)) as (c & E & _);
    [assumption | assumption | vm_compute; reflexivity | vm_compute; reflexivity |].
  exists c. exact E.
Qed.

Lemma fits_abs z : (Z.abs z <= big)%Z ->
  - inject_Z big <= inject_Z z /\ inject_Z z <= inject_Z big.
Proof.
  intros H. rewrite <- inject_Z_opp, <- !Zle_Qle. lia.
Qed.

(** An integer within the finite range converts, a nonzero one to a
    nonzero float. *)
Lemma to_float_int z : (Z.abs z <= big)%Z ->
  exists c, to_float (NInt z) = Ok (Fin c) /\ (z <> 0%Z -> Qeq_bool c 0 = false).
Proof.
  intros H. destruct (fits_abs z H) as [L U]. cbn [to_float].
  assert (N : forall c, ~ c == 0 -> Qeq_bool c 0 = false).
  { intros c Hc. destruct (Qeq_bool c 0) eqn:E; [apply Qeq_bool_iff in E; contradiction | reflexivity]. }
  destruct (Z_dec z 0) as [[Neg|Pos]|Zero].
  - destruct (of_Q_between (inject_Z z) (- inject_Z big) (-1) (Qred (- inject_Z big)) (-1))
      as (c & E & _ & Hc);
      [assumption | change (-1) with (inject_Z (-1)); rewrite <- Zle_Qle; lia
      | vm_compute; reflexivity | vm_compute; reflexivity |].
    rewrite E. exists c. split; [reflexivity|]. intros _. apply N. lra.
  - destruct (of_Q_between (inject_Z z) 1 (inject_Z big) 1 (inject_Z big))
      as (c & E & Hc & _);
      [change 1 with (inject_Z 1); rewrite <- Zle_Qle; lia | assumption
      | vm_compute; reflexivity | vm_compute; reflexivity |].
    rewrite E. exists c. split; [reflexivity|]. intros _. apply N. lra.
  - subst z. exists 0. split; [reflexivity | congruence].
Qed.

(** The quotient of such an integer by a nonzero integer is in range. *)
Lemma int_truediv_ok x y : (Z.abs x <= big)%Z -> y <> 0%Z ->
  exists f, truediv (NInt x) (NInt y) = Ok f.
Proof.
  intros H Hy. destruct (fits_abs x H) as [L U]. cbn [truediv].
  destruct (Z.eqb_spec y 0) as [|_]; [contradiction|].
  assert (B : - inject_Z big <= inject_Z x / inject_Z y /\ inject_Z x / inject_Z y <= inject_Z big).
  { pose proof (Qinv_lt_0_compat (inject_Z (Z.abs y))) as I.
    assert (A : 1 <= inject_Z (Z.abs y)) by (change 1 with (inject_Z 1); rewrite <- Zle_Qle; lia).
    specialize (I ltac:(lra)).
    assert (I1 : / inject_Z (Z.abs y) <= 1).
    { apply Qle_shift_inv_r; lra. }
    destruct (Z_lt_le_dec y 0) as [Neg|Pos].
    - assert (E : inject_Z x / inject_Z y == - inject_Z x * / inject_Z (Z.abs y)).
      { rewrite Z.abs_neq by lia. rewrite inject_Z_opp. field.
        intros C. assert (C' : inject_Z y < 0) by (change 0 with (inject_Z 0); rewrite <- Zlt_Qlt; lia). lra. }
      rewrite E. set (iy := / inject_Z (Z.abs y)) in *. split; nra.
    - assert (E : inject_Z x / inject_Z y == inject_Z x * / inject_Z (Z.abs y)).
      { rewrite Z.abs_eq by lia. reflexivity. }
      rewrite E. set (iy := / inject_Z (Z.abs y)) in *. split; nra. }
  destruct (of_Q_fits _ (proj1 B) (proj2 B)) as (c & ->). exists (Fin c). reflexivity.
Qed.

(** True division of numbers by a nonzero number returns. *)
Lemma truediv_ok v w : number v -> number w -> zero w = false ->
  exists f, truediv_values v w = Ok f.
Proof.
  intros Nv Nw Z. unfold truediv_values.
  assert (Hv : exists a, as_num v = Ok a /\
            match a with NInt z => (Z.abs z <= big)%Z | NFloat _ => True end).
  { destruct v; try contradiction; cbn [as_num];
      [eexists; split; [reflexivity|]; destruct b; vm_compute; discriminate
      | eexists; split; [reflexivity | exact Nv]
      | eexists; split; [reflexivity | exact I] ]. }
  assert (Hw : exists b, as_num w = Ok b /\
            match b with
            | NInt z => (Z.abs z <= big)%Z /\ z <> 0%Z
            | NFloat f => is_zero f = false
            end).
  { destruct w; try contradiction; cbn [as_num zero] in *.
    - eexists; split; [reflexivity|]. destruct b; [|discriminate]. split; [vm_compute|]; discriminate.
    - eexists; split; [reflexivity|]. split; [exact Nw|]. apply Z.eqb_neq, Z.
    - eexists; split; [reflexivity | exact Z]. }
  destruct Hv as (a & -> & Ha), Hw as (b & -> & Hb). cbn [bind].
  destruct a as [x|fa], b as [y|fb].
  - destruct Hb. apply int_truediv_ok; assumption.
  - destruct (to_float_int x Ha) as (c & E & _). unfold truediv. rewrite E.
    cbn [bind to_float]. rewrite Hb. eexists; reflexivity.
  - destruct Hb as [Hy Ny]. destruct (to_float_int y Hy) as (c & E & Nc).
    unfold truediv. rewrite E. cbn [to_float bind is_zero].
    rewrite (Nc Ny). eexists; reflexivity.
  - unfold truediv. cbn [to_float bind]. rewrite Hb. eexists; reflexivity.
Qed.

(** *** Classification *)

(** The answer of classification when both divisions return. *)
Lemma classify_eq d m whr shr :
  lookup "measurements" d = Some (VDict m) ->
  truediv_values (measurement m "waistCircumference" 80)
                 (measurement m "hipCircumference" 100) = Ok whr ->
  truediv_values (measurement m "shoulderWidth" 45)
                 (measurement m "hipCircumference" 100) = Ok shr ->
  classify_body_type (VDict d)
  = Ok (VDict [("bodyType", VStr (first_match whr shr));
               ("confidence", VFloat (lit 0.87))]).
Proof.
  intros M W S. unfold classify_body_type. cbn [get bind]. rewrite M. cbn [get bind].
  fold (measurement m "waistCircumference" 80) (measurement m "hipCircumference" 100)
       (measurement m "shoulderWidth" 45).
  rewrite W. cbn [bind]. rewrite S. reflexivity.
Qed.

Lemma first_match_types whr shr : In (first_match whr shr) body_types.
Proof.
  unfold first_match, body_types.
  destruct (flt whr _); [cbn; auto|].
  destruct (fgt shr _); [cbn; auto|].
  destruct (fgt whr _); cbn; auto.
Qed.

Lemma classify_confidence data resp :
  classify_body_type data = Ok resp ->
  field "confidence" resp = Some (VFloat (lit 0.87)).
Proof.
  unfold classify_body_type. intros H.
  repeat match type of H with
         | bind ?r _ = Ok _ => destruct r; cbn [bind] in H; [|discriminate]
         end.
  change (match Ok resp with
          | Ok v => field "confidence" v
          | Raise _ => None
          end = Some (VFloat (lit 0.87))).
  rewrite <- H. reflexivity.
Qed.
End HandlerFacts.

(* ================================================================== *)
(** ** The measurement dicts and the landmark points *)

Module MeasurementFacts.
Import Binary64 Binary64Facts Py Random App Spec.
Import RangeFacts StringFacts ShapeFacts PoseFacts HandlerFacts.
Open Scope string_scope.

Lemma eq_str_true u text : eq_str u text = true -> u = VStr text.
Proof.
  destruct u; cbn [eq_str]; try discriminate. intros H.
  apply String.eqb_eq in H. subst. reflexivity.
Qed.

Lemma valid_zero_draws : valid zero_draws.
Proof. intros i. cbn. lia. Qed.

Lemma valid_half_draws : valid half_draws.
Proof. intros i. cbn. lia. Qed.

Lemma flt_irrefl x : flt x x = false.
Proof.
  destruct x as [a|s|]; cbn [flt]; [|destruct s; reflexivity|reflexivity].
  apply negb_false_iff, Qle_bool_iff, Qle_refl.
Qed.

Lemma flt_neq x y : flt x y = true -> x <> y.
Proof. intros H E. subst y. rewrite flt_irrefl in H. discriminate. Qed.

Lemma flt_feq x y : flt x y = true -> feq x y = false.
Proof.
  destruct x as [a|s|], y as [b|t|]; cbn [flt feq]; try discriminate; try reflexivity.
  - intros H. apply negb_true_iff in H.
    destruct (Qeq_bool a b) eqn:E; [|reflexivity].
    apply Qeq_bool_iff in E.
    assert (C : Qle_bool b a = true) by (apply Qle_bool_iff; rewrite E; apply Qle_refl).
    congruence.
  - destruct s, t; cbn; congruence.
Qed.

Lemma length_keys_ranges key :
  In key length_keys -> exists lo hi, In (key, (lo, hi)) metric_ranges.
Proof.
  change length_keys with (map fst metric_ranges). intros H.
  apply in_map_iff in H as ([k [lo hi]] & <- & H). exists lo, hi. exact H.
Qed.

(** One of the nine measurements, metric and imperial, for the draws of [g]. *)
Lemma measurement_rows u u' g key lo hi :
  valid g -> In (key, (lo, hi)) metric_ranges ->
  exists v w,
    lookup key (metric_measurements u g) = Some (VFloat v)
    /\ lookup key (imperial_measurements u' g) = Some (VFloat w)
    /\ w = fdiv v (lit 2.54)
    /\ within (of_int lo) (of_int hi) v
    /\ within (fdiv (of_int lo) (lit 2.54)) (fdiv (of_int hi) (lit 2.54)) w
    /\ flt w v = true.
Proof.
  intros V H.
  assert (R : forall i, exists y, stub_value lo (hi - lo) (draw g i) = Fin y
    /\ within (of_int lo) (of_int hi) (Fin y)
    /\ exists t, fdiv (Fin y) (lit 2.54) = Fin t
         /\ within (fdiv (of_int lo) (lit 2.54)) (fdiv (of_int hi) (lit 2.54)) (Fin t)
         /\ flt (Fin t) (Fin y) = true)
    by (intros i; exact (stub_value_range key lo hi g i V H)).
  unfold metric_ranges in H.
  repeat (destruct H as [H|H]; [injection H as <- <- <-|]); [..|destruct H].
  1: destruct (R (0 + pos g)%nat) as (y & E & W & t & Et & Wt & Lt).
  2: destruct (R (1 + pos g)%nat) as (y & E & W & t & Et & Wt & Lt).
  3: destruct (R (2 + pos g)%nat) as (y & E & W & t & Et & Wt & Lt).
  4: destruct (R (3 + pos g)%nat) as (y & E & W & t & Et & Wt & Lt).
  5: destruct (R (4 + pos g)%nat) as (y & E & W & t & Et & Wt & Lt).
  6: destruct (R (5 + pos g)%nat) as (y & E & W & t & Et & Wt & Lt).
  7: destruct (R (6 + pos g)%nat) as (y & E & W & t & Et & Wt & Lt).
  8: destruct (R (7 + pos g)%nat) as (y & E & W & t & Et & Wt & Lt).
  9: destruct (R (8 + pos g)%nat) as (y & E & W & t & Et & Wt & Lt).
  all: clear R;
    match type of E with
    | stub_value _ ?span _ = _ =>
        let s := eval vm_compute in span in change span with s in E
    end;
    eexists; eexists; (split; [reflexivity|]); (split; [reflexivity|]);
    (split; [reflexivity|]); rewrite E, ?Et;
    split; [exact W | split; [exact Wt | exact Lt]].
Qed.

Lemma metric_fixed_fields u g :
  lookup "confidence" (metric_measurements u g) = Some (VFloat (lit 0.89))
  /\ lookup "unit" (metric_measurements u g) = Some u.
Proof. split; reflexivity. Qed.

Lemma imperial_fixed_fields u g :
  lookup "confidence" (imperial_measurements u g) = Some (VFloat (lit 0.89))
  /\ lookup "unit" (imperial_measurements u g) = Some u.
Proof. split; reflexivity. Qed.

End MeasurementFacts.

Module PoseRangeFacts.
Import Binary64 Binary64Facts Py Random App Spec.
Import RangeFacts StringFacts ShapeFacts PoseFacts HandlerFacts MeasurementFacts.
Open Scope string_scope.

Lemma valid_advance n g : valid g -> valid (advance n g).
Proof. intros V i. exact (V i). Qed.

Lemma length_points_from l : forall g, List.length (points_from g l) = List.length l.
Proof.
  induction l as [|[i name] l IH]; intros g; [reflexivity|].
  cbn [points_from List.length]. rewrite IH. reflexivity.
Qed.

Lemma point_at_ok g i name : valid g -> landmark_ok i name (point_at g i name).
Proof.
  intros V.
  destruct (pose_x_range g (pos g) V) as (x & Ex & Wx).
  destruct (pose_z_range g (S (pos g)) V) as (z & Ez & Wz).
  destruct (pose_confidence_range g (S (S (pos g))) V) as (c & Ec & Wc).
  exists (Fin x), (Fin z), (Fin c). unfold point_at. rewrite Ex, Ez, Ec.
  split; [reflexivity|]. split; [exact Wx|]. split; [exact Wz | exact Wc].
Qed.

Lemma nth_landmark g i name :
  nth_error landmark_names i = Some name ->
  nth_error (points_from g (enumerate landmark_names)) i
  = Some (point_at (advance (3 * i) g) i name).
Proof. intros H. exact (nth_points landmark_names 0 g i name H). Qed.

End PoseRangeFacts.

(* ================================================================== *)
(** ** The float model against the kernel's binary64 arithmetic *)

Module Binary64Check.
Import Binary64.
Open Scope Q_scope.

(** Every decimal literal of app.py denotes, in the model, the float that
    Rocq's primitive binary64 parser gives it. *)
Example literals_agree :
  map of_prim
    [ 0.95%float; 0.3%float; 0.4%float; 0.9%float; 0.05%float; 0.1%float;
      0.85%float; 0.92%float; 0.89%float; 2.54%float; 0.75%float; 0.5%float;
      0.87%float; 0.7%float ]
  = map lit [ 0.95; 0.3; 0.4; 0.9; 0.05; 0.1; 0.85; 0.92; 0.89; 2.54; 0.75;
              0.5; 0.87; 0.7 ].
Proof. vm_compute. reflexivity. Qed.

(** The arithmetic of the model rounds as the kernel's: the expressions of
    the handlers at a sample draw, a subnormal quotient and an overflow. *)
Example operations_agree :
  [ of_prim (0.3 + 0.625 * 0.4)%float;
    of_prim (0.625 * 0.1 - 0.05)%float;
    of_prim (0.85 + 0.625 * 0.1)%float;
    of_prim (5 / 33 * 0.9 + 0.05)%float;
    of_prim (170 + 0.625 * 20)%float;
    of_prim ((170 + 0.625 * 20) / 2.54)%float;
    of_prim (70 / 100)%float;
    of_prim (0x1p-1074 / 3)%float;
    of_prim (0x1p-1060 / 3)%float;
    of_prim (0x1p1023 * 2)%float ]
  = [ fadd (lit 0.3) (fmul (lit 0.625) (lit 0.4));
      fsub (fmul (lit 0.625) (lit 0.1)) (lit 0.05);
      fadd (lit 0.85) (fmul (lit 0.625) (lit 0.1));
      fadd (fmul (fdiv (lit 5) (lit 33)) (lit 0.9)) (lit 0.05);
      fadd (lit 170) (fmul (lit 0.625) (lit 20));
      fdiv (fadd (lit 170) (fmul (lit 0.625) (lit 20))) (lit 2.54);
      fdiv (lit 70) (lit 100);
      fdiv (Fin (pow2 (-1074))) (lit 3);
      fdiv (Fin (pow2 (-1060))) (lit 3);
      fmul (Fin (pow2 1023)) (lit 2) ].
Proof. vm_compute. reflexivity. Qed.

(** Ties, in both directions and on both sides of zero; subnormals; the
    overflow threshold. *)
Example rounding_agrees :
  [ of_prim (1 + 0x1p-53)%float; of_prim (1 + 0x3p-53)%float;
    of_prim (-1 - 0x1p-53)%float; of_prim (-1 - 0x3p-53)%float;
    of_prim (-0.1 * 3)%float; of_prim (-7 / 3)%float;
    of_prim (0x1p-1074 * 0.5)%float; of_prim (0x3p-1074 * 0.5)%float;
    of_prim (-0x1p1023 * 2)%float;
    of_prim (0x1.fffffffffffffp1023 + 0x1p969)%float;
    of_prim (0x1.fffffffffffffp1023 + 0x1p970)%float;
    of_prim (0.1 + 0.2)%float ]
  = [ fadd (lit 1) (Fin (pow2 (-53))); fadd (lit 1) (Fin (3 * pow2 (-53)));
      fsub (lit (-1)) (Fin (pow2 (-53))); fsub (lit (-1)) (Fin (3 * pow2 (-53)));
      fmul (lit (-0.1)) (lit 3); fdiv (lit (-7)) (lit 3);
      fmul (Fin (pow2 (-1074))) (lit 0.5); fmul (Fin (3 * pow2 (-1074))) (lit 0.5);
      fmul (Fin (- pow2 1023)) (lit 2);
      fadd (Fin max_finite) (Fin (pow2 969));
      fadd (Fin max_finite) (Fin (pow2 970));
      fadd (lit 0.1) (lit 0.2) ].
Proof. vm_compute. reflexivity. Qed.

End Binary64Check.

(* ================================================================== *)
(** ** The claims of the specification *)

Import Binary64 Binary64Facts Py Random App Spec.
Import RangeFacts StringFacts ShapeFacts PoseFacts HandlerFacts.
Import MeasurementFacts PoseRangeFacts.
Open Scope string_scope.

(** *** Body-type classification *)

(** C1.  Classification is the first-match procedure on the ratios
    waist/hip and shoulder/hip, where a measurement that the request lacks
    takes its fallback (80, 100, 45): whenever the two divisions return,
    the answer is [first_match] of the two ratios with confidence 0.87;
    every answer carries confidence 0.87; and the four test vectors of the
    specification give hourglass, inverted-triangle, rectangle and pear. *)
Theorem classify_first_match :
  (forall d m whr shr,
      lookup "measurements" d = Some (VDict m) ->
      truediv_values (measurement m "waistCircumference" 80)
                     (measurement m "hipCircumference" 100) = Ok whr ->
      truediv_values (measurement m "shoulderWidth" 45)
                     (measurement m "hipCircumference" 100) = Ok shr ->
      classify_body_type (VDict d) = Ok (classification (first_match whr shr)))
  /\ (forall data resp,
         classify_body_type data = Ok resp ->
         field "confidence" resp = Some (VFloat (lit 0.87)))
  /\ classify_body_type (measurements_request 70 100 45)
     = Ok (classification "hourglass")
  /\ classify_body_type (measurements_request 90 100 60)
     = Ok (classification "inverted-triangle")
  /\ classify_body_type (measurements_request 90 100 40)
     = Ok (classification "rectangle")
  /\ classify_body_type (measurements_request 80 100 40)
     = Ok (classification "pear").
Proof.
  split; [exact classify_eq|]. split; [exact classify_confidence|].
  repeat split; vm_compute; reflexivity.
Qed.

Lemma classify_first_match_witness :
  classify_body_type (VDict [("measurements", VDict [("waistCircumference", VInt 70)])])
  = Ok (classification (first_match (lit 0.7) (lit 0.45))).
Proof.
  apply (proj1 classify_first_match
               [("measurements", VDict [("waistCircumference", VInt 70)])]
               [("waistCircumference", VInt 70)] (lit 0.7) (lit 0.45));
    vm_compute; reflexivity.
Defined.

(** C6, as the specification states it, fails: a measurement object with
    numeric values whose hipCircumference is 0 (the integer or the float)
    makes the division raise ZeroDivisionError, and an integer too large
    for a float makes it raise OverflowError. *)
Lemma zero_hip_counterexample :
  number (VInt 0)
  /\ classify_body_type
       (VDict [("measurements", VDict [("hipCircumference", VInt 0)])])
     = Raise ZeroDivisionError
  /\ classify_body_type
       (VDict [("measurements", VDict [("hipCircumference", VFloat (Fin 0))])])
     = Raise ZeroDivisionError
  /\ classify_body_type
       (VDict [("measurements", VDict [("waistCircumference", VInt (10 ^ 400))])])
     = Raise OverflowError.
Proof.
  split; [vm_compute; discriminate|]. repeat split; vm_compute; reflexivity.
Qed.

(** C6, amended.  For every measurement object whose waist, hip and
    shoulder measurements (with their fallbacks) are numbers, floats or
    integers that fit a float, and whose hipCircumference is not zero,
    classification succeeds with one of the four body types and status
    200. *)
Theorem classify_succeeds_on_nonzero_hip d m :
  lookup "measurements" d = Some (VDict m) ->
  number (measurement m "waistCircumference" 80) ->
  number (measurement m "hipCircumference" 100) ->
  number (measurement m "shoulderWidth" 45) ->
  zero (measurement m "hipCircumference" 100) = false ->
  exists body_type,
    In body_type body_types
    /\ classify_body_type (VDict d) = Ok (classification body_type)
    /\ status (respond (classify_body_type (VDict d))) = 200%Z.
Proof.
  intros M Nw Nh Ns Z.
  destruct (truediv_ok _ _ Nw Nh Z) as (whr & W).
  destruct (truediv_ok _ _ Ns Nh Z) as (shr & S).
  exists (first_match whr shr). split; [apply first_match_types|].
  rewrite (classify_eq d m whr shr M W S). split; reflexivity.
Qed.

Lemma classify_succeeds_on_nonzero_hip_witness :
  exists body_type,
    In body_type body_types
    /\ classify_body_type
         (VDict [("measurements", VDict [("hipCircumference", VFloat (lit 92.5))])])
       = Ok (classification body_type)
    /\ status (respond (classify_body_type
         (VDict [("measurements", VDict [("hipCircumference", VFloat (lit 92.5))])])))
       = 200%Z.
Proof.
  refine (classify_succeeds_on_nonzero_hip
            [("measurements", VDict [("hipCircumference", VFloat (lit 92.5))])]
            [("hipCircumference", VFloat (lit 92.5))] eq_refl _ I _ _).
  - vm_compute. discriminate.
  - vm_compute. discriminate.
  - vm_compute. reflexivity.
Defined.

(** *** Background removal *)

(** C2, as the specification states it, fails: [str.replace] rewrites every
    occurrence, not the suffix only, so the url [scan.jpg.png] becomes
    [scan_masked.jpg_masked.png] and not [scan.jpg_masked.png]. *)
Lemma suffix_replacement_counterexample :
  remove_background
    (VDict [("photos",
             VList [VDict [("url", VStr "scan.jpg.png"); ("type", VStr "front")]])])
  = Ok (VDict [("processedPhotos",
                VList [processed "scan_masked.jpg_masked.png" (VStr "front")])])
  /\ "scan_masked.jpg_masked.png" <> "scan.jpg" ++ "_masked.png".
Proof. split; [vm_compute; reflexivity | discriminate]. Qed.

(** C2, amended.  For every list of photos that each have a string [url]
    and a [type], background removal returns one record per photo, in the
    order of the input, with the photo's [type], [maskQuality] 0.95 and the
    url in which every occurrence of [.jpg] is replaced by [_masked.jpg]
    and then every occurrence of [.png] by [_masked.png].  For a url
    [stem ++ ".jpg"] (or [".png"]) that url is the masked stem followed by
    [_masked.jpg] ([_masked.png]), so it ends as the specification says,
    and it is [stem ++ "_masked.jpg"] ([stem ++ "_masked.png"]) when the
    stem contains neither extension. *)
Theorem background_removal_urls d photos entries :
  request_photos d = VList photos ->
  Forall2 (fun p e => has_url_type p (fst e) (snd e)) photos entries ->
  remove_background (VDict d)
  = Ok (VDict [("processedPhotos",
                VList (map (fun e => processed (masked_url (fst e)) (snd e)) entries))])
  /\ List.length entries = List.length photos
  /\ (forall stem,
         masked_url (stem ++ ".jpg") = masked_url stem ++ "_masked.jpg"
         /\ masked_url (stem ++ ".png") = masked_url stem ++ "_masked.png")
  /\ (forall stem,
         occurs ".jpg" stem = false -> occurs ".png" stem = false ->
         masked_url (stem ++ ".jpg") = stem ++ "_masked.jpg"
         /\ masked_url (stem ++ ".png") = stem ++ "_masked.png").
Proof.
  intros P F. split; [exact (remove_background_eq d photos entries P F)|].
  split; [symmetry; exact (Forall2_length F)|]. split.
  - intros stem. split; [apply masked_url_jpg | apply masked_url_png].
  - intros stem J G. rewrite masked_url_jpg, masked_url_png.
    rewrite (masked_url_clean stem J G). split; reflexivity.
Qed.

Lemma background_removal_urls_witness :
  remove_background
    (VDict [("photos", VList [VDict [("url", VStr "a.jpg"); ("type", VStr "front")];
                              VDict [("type", VNone); ("url", VStr "b.png")]])])
  = Ok (VDict [("processedPhotos",
                VList [processed (masked_url "a.jpg") (VStr "front");
                       processed (masked_url "b.png") VNone])]).
Proof.
  refine (proj1 (background_removal_urls
            [("photos", VList [VDict [("url", VStr "a.jpg"); ("type", VStr "front")];
                               VDict [("type", VNone); ("url", VStr "b.png")]])]
            _ [("a.jpg", VStr "front"); ("b.png", VNone)] eq_refl _)).
  repeat constructor; eexists; repeat split; reflexivity.
Defined.

(** C5, as the specification states it, fails: a photo entry without [url]
    makes the handler raise KeyError, which Flask answers with the generic
    500, not with a 4xx. *)
Lemma missing_url_counterexample :
  remove_background (VDict [("photos", VList [VDict [("type", VStr "front")]])])
  = Raise KeyError
  /\ status (respond (remove_background
                        (VDict [("photos", VList [VDict [("type", VStr "front")]])])))
     = 500%Z
  /\ ~ client_error 500.
Proof.
  split; [reflexivity|]. split; [reflexivity|]. unfold client_error. lia.
Qed.

(** C5, amended.  For every background-removal request whose photo list has
    an entry that lacks [url] or [type], the handler raises an exception it
    does not handle, and the answer is the generic server error (status
    500), not a client error. *)
Theorem malformed_photo_is_server_error d photos :
  request_photos d = VList photos ->
  Exists malformed photos ->
  (exists e, remove_background (VDict d) = Raise e)
  /\ status (respond (remove_background (VDict d))) = 500%Z
  /\ ~ client_error (status (respond (remove_background (VDict d)))).
Proof.
  intros P E. destruct (remove_background_malformed d photos P E) as (e & ->).
  split; [exists e; reflexivity|]. split; [reflexivity|].
  cbn [respond status]. unfold client_error. lia.
Qed.

Lemma malformed_photo_is_server_error_witness :
  (exists e,
      remove_background
        (VDict [("photos", VList [VDict [("url", VStr "a.jpg"); ("type", VStr "front")];
                                  VDict [("url", VStr "b.jpg")]])]) = Raise e)
  /\ status (respond (remove_background
        (VDict [("photos", VList [VDict [("url", VStr "a.jpg"); ("type", VStr "front")];
                                  VDict [("url", VStr "b.jpg")]])]))) = 500%Z
  /\ ~ client_error (status (respond (remove_background
        (VDict [("photos", VList [VDict [("url", VStr "a.jpg"); ("type", VStr "front")];
                                  VDict [("url", VStr "b.jpg")]])])))).
Proof.
  refine (malformed_photo_is_server_error
            [("photos", VList [VDict [("url", VStr "a.jpg"); ("type", VStr "front")];
                               VDict [("url", VStr "b.jpg")]])] _ eq_refl _).
  apply Exists_cons_tl, Exists_cons_hd.
  exists [("url", VStr "b.jpg")]. split; [reflexivity | right; reflexivity].
Defined.

(** *** Missing request fields *)

(** C7, as the specification states it, fails: a background-removal request
    without [photos] succeeds, with an empty list of processed photos. *)
Lemma missing_photos_counterexample :
  lookup "photos" [] = None
  /\ remove_background (VDict []) = Ok (VDict [("processedPhotos", VList [])])
  /\ status (respond (remove_background (VDict []))) = 200%Z.
Proof. repeat split. Qed.

(** C7, amended.  Of the four required fields only [measurements] is
    required by the code.  A request without [photos] is served as one with
    the empty list: background removal returns no processed photo and pose
    detection its 33 points.  A request without [landmarks] gets its
    measurements.  A body-type request without [measurements] raises an
    AttributeError that nothing handles, the generic server error 500. *)
Theorem missing_required_field d g :
  (lookup "photos" d = None ->
   remove_background (VDict d) = Ok (VDict [("processedPhotos", VList [])])
   /\ (exists points g', detect_pose (VDict d) g = Ok (pose_answer points, g')
                         /\ List.length points = 33%nat))
  /\ (lookup "landmarks" d = None ->
      exists measurements g',
        extract_measurements (VDict d) g
        = Ok (VDict [("measurements", VDict measurements)], g'))
  /\ (lookup "measurements" d = None ->
      classify_body_type (VDict d) = Raise AttributeError
      /\ status (respond (classify_body_type (VDict d))) = 500%Z).
Proof.
  split; [|split].
  - intros P.
    assert (R : request_photos d = VList [])
      by (unfold request_photos; rewrite P; reflexivity).
    split.
    + exact (remove_background_eq d [] [] R (Forall2_nil _)).
    + exists (points_from g (enumerate landmark_names)), (advance 99 g).
      split; [exact (detect_pose_eq d [] g R)|].
      rewrite length_points_from. reflexivity.
  - intros _. destruct (eq_str (request_unit d) "imperial") eqn:U.
    + eexists; eexists. exact (extract_imperial d g U).
    + eexists; eexists. exact (extract_metric d g U).
  - intros M. unfold classify_body_type. cbn [get bind]. rewrite M.
    split; reflexivity.
Qed.

Lemma missing_required_field_witness :
  remove_background (VDict []) = Ok (VDict [("processedPhotos", VList [])])
  /\ (exists points g', detect_pose (VDict []) zero_draws = Ok (pose_answer points, g')
                        /\ List.length points = 33%nat).
Proof.
  exact (proj1 (missing_required_field [] zero_draws) eq_refl).
Defined.

(** *** Measurement extraction *)

(** C3.  For the same draws, the answer to an imperial request holds, for
    each of the nine measurements (height, shoulderWidth,
    chestCircumference, waistCircumference, hipCircumference, armLength,
    inseam, neckCircumference, thighCircumference), exactly the value of
    the metric answer divided by 2.54, and that value differs from the
    metric one; the two dicts differ; [confidence] is 0.89 in both and
    [unit] is the flag of the request, neither divided. *)
Theorem imperial_is_metric_over_2_54 d_metric d_imperial g :
  valid g ->
  eq_str (request_unit d_metric) "imperial" = false ->
  eq_str (request_unit d_imperial) "imperial" = true ->
  exists metric imperial g',
    extract_measurements (VDict d_metric) g
    = Ok (VDict [("measurements", VDict metric)], g')
    /\ extract_measurements (VDict d_imperial) g
       = Ok (VDict [("measurements", VDict imperial)], g')
    /\ Forall (fun key =>
                 exists v w,
                   lookup key metric = Some (VFloat v)
                   /\ lookup key imperial = Some (VFloat w)
                   /\ w = fdiv v (lit 2.54)
                   /\ feq w v = false)
              ["height"; "shoulderWidth"; "chestCircumference";
               "waistCircumference"; "hipCircumference"; "armLength"; "inseam";
               "neckCircumference"; "thighCircumference"]
    /\ imperial <> metric
    /\ lookup "confidence" metric = Some (VFloat (lit 0.89))
    /\ lookup "confidence" imperial = Some (VFloat (lit 0.89))
    /\ lookup "unit" metric = Some (request_unit d_metric)
    /\ lookup "unit" imperial = Some (VStr "imperial").
Proof.
  intros V M I.
  set (um := request_unit d_metric) in *. set (ui := request_unit d_imperial) in *.
  exists (metric_measurements um g), (imperial_measurements ui g), (advance 9 g).
  split; [exact (extract_metric d_metric g M)|].
  split; [exact (extract_imperial d_imperial g I)|].
  split.
  { apply Forall_forall. intros key H.
    destruct (length_keys_ranges key H) as (lo & hi & R).
    destruct (measurement_rows um ui g key lo hi V R)
      as (v & w & Lm & Li & Ew & _ & _ & Lt).
    exists v, w. repeat split; try assumption. apply flt_feq, Lt. }
  split.
  { intros E.
    destruct (measurement_rows um ui g "height" 170 190 V ltac:(left; reflexivity))
      as (v & w & Lm & Li & _ & _ & _ & Lt).
    apply (flt_neq w v Lt).
    assert (X : Some (VFloat w) = Some (VFloat v))
      by (rewrite <- Li, <- Lm, E; reflexivity).
    clear - X. injection X. auto. }
  split; [apply metric_fixed_fields|]. split; [apply imperial_fixed_fields|].
  split; [apply metric_fixed_fields|].
  rewrite <- (eq_str_true _ _ I). apply imperial_fixed_fields.
Qed.

Lemma imperial_is_metric_over_2_54_witness :
  exists metric imperial g',
    extract_measurements (VDict []) zero_draws
    = Ok (VDict [("measurements", VDict metric)], g')
    /\ extract_measurements (VDict [("unit", VStr "imperial")]) zero_draws
       = Ok (VDict [("measurements", VDict imperial)], g')
    /\ Forall (fun key =>
                 exists v w,
                   lookup key metric = Some (VFloat v)
                   /\ lookup key imperial = Some (VFloat w)
                   /\ w = fdiv v (lit 2.54)
                   /\ feq w v = false)
              ["height"; "shoulderWidth"; "chestCircumference";
               "waistCircumference"; "hipCircumference"; "armLength"; "inseam";
               "neckCircumference"; "thighCircumference"]
    /\ imperial <> metric
    /\ lookup "confidence" metric = Some (VFloat (lit 0.89))
    /\ lookup "confidence" imperial = Some (VFloat (lit 0.89))
    /\ lookup "unit" metric = Some (VStr "metric")
    /\ lookup "unit" imperial = Some (VStr "imperial").
Proof.
  exact (imperial_is_metric_over_2_54 [] [("unit", VStr "imperial")] zero_draws
           valid_zero_draws eq_refl eq_refl).
Defined.

(** C8, as the specification states it, fails: the height of an imperial
    request is the metric height divided by 2.54, here 170 / 2.54, which is
    not within [170, 190]. *)
Lemma imperial_request_counterexample :
  valid zero_draws
  /\ match extract_measurements (VDict [("unit", VStr "imperial")]) zero_draws with
     | Ok (resp, _) => height_of resp
     | Raise _ => None
     end = Some (fdiv (of_int 170) (lit 2.54))
  /\ ~ within (of_int 170) (of_int 190) (fdiv (of_int 170) (lit 2.54)).
Proof.
  split; [exact valid_zero_draws|]. split; [vm_compute; reflexivity|].
  intros [L _]. vm_compute in L. discriminate L.
Qed.

(** C8, amended.  Every measurement-extraction request is answered with
    [confidence] 0.89 and with [unit] the unit flag of the request
    ('metric' when absent); each of the nine measurements lies within its
    metric range when the flag is not 'imperial', and within that range
    divided by 2.54 when it is. *)
Theorem measurement_extraction_ranges d g :
  valid g ->
  exists measurements g',
    extract_measurements (VDict d) g
    = Ok (VDict [("measurements", VDict measurements)], g')
    /\ lookup "confidence" measurements = Some (VFloat (lit 0.89))
    /\ lookup "unit" measurements = Some (request_unit d)
    /\ Forall (fun row =>
                 let '(key, (lo, hi)) := row in
                 exists v,
                   lookup key measurements = Some (VFloat v)
                   /\ if eq_str (request_unit d) "imperial"
                      then within (fdiv (of_int lo) (lit 2.54))
                                  (fdiv (of_int hi) (lit 2.54)) v
                      else within (of_int lo) (of_int hi) v) metric_ranges.
Proof.
  intros V. set (u := request_unit d). destruct (eq_str u "imperial") eqn:U.
  - exists (imperial_measurements u g), (advance 9 g).
    split; [exact (extract_imperial d g U)|].
    split; [apply imperial_fixed_fields|]. split; [apply imperial_fixed_fields|].
    apply Forall_forall. intros [key [lo hi]] H.
    destruct (measurement_rows u u g key lo hi V H) as (v & w & _ & Li & _ & _ & W & _).
    exists w. split; assumption.
  - exists (metric_measurements u g), (advance 9 g).
    split; [exact (extract_metric d g U)|].
    split; [apply metric_fixed_fields|]. split; [apply metric_fixed_fields|].
    apply Forall_forall. intros [key [lo hi]] H.
    destruct (measurement_rows u u g key lo hi V H) as (v & w & Lm & _ & _ & W & _).
    exists v. split; assumption.
Qed.

Lemma measurement_extraction_ranges_witness :
  exists measurements g',
    extract_measurements (VDict [("landmarks", VNone)]) half_draws
    = Ok (VDict [("measurements", VDict measurements)], g')
    /\ lookup "confidence" measurements = Some (VFloat (lit 0.89))
    /\ lookup "unit" measurements = Some (VStr "metric")
    /\ Forall (fun row =>
                 let '(key, (lo, hi)) := row in
                 exists v,
                   lookup key measurements = Some (VFloat v)
                   /\ within (of_int lo) (of_int hi) v) metric_ranges.
Proof.
  exact (measurement_extraction_ranges [("landmarks", VNone)] half_draws
           valid_half_draws).
Defined.

(** *** Pose detection *)

(** C4.  Whatever the photo list of the request, pose detection answers
    with exactly 33 points; the i-th point carries the i-th of the 33
    anatomical names, from [nose] to [right_foot_index] in the order
    written out below, [y] equal to (i/33)*0.9 + 0.05, [x] within
    [0.3, 0.7], [z] within [-0.05, 0.05] and [confidence] within
    [0.85, 0.95]; and [y] increases strictly with the index. *)
Theorem pose_detection_landmarks d photos g :
  valid g ->
  request_photos d = VList photos ->
  exists points g',
    detect_pose (VDict d) g = Ok (pose_answer points, g')
    /\ List.length points = 33%nat
    /\ (forall i name,
           nth_error
             ["nose"; "left_eye_inner"; "left_eye"; "left_eye_outer";
              "right_eye_inner"; "right_eye"; "right_eye_outer";
              "left_ear"; "right_ear"; "mouth_left"; "mouth_right";
              "left_shoulder"; "right_shoulder"; "left_elbow"; "right_elbow";
              "left_wrist"; "right_wrist"; "left_pinky"; "right_pinky";
              "left_index"; "right_index"; "left_thumb"; "right_thumb";
              "left_hip"; "right_hip"; "left_knee"; "right_knee";
              "left_ankle"; "right_ankle"; "left_heel"; "right_heel";
              "left_foot_index"; "right_foot_index"] i
           = Some name ->
           exists p, nth_error points i = Some p /\ landmark_ok i name p)
    /\ (forall i j, (i < j < 33)%nat -> flt (pose_y i) (pose_y j) = true).
Proof.
  intros V P.
  exists (points_from g (enumerate landmark_names)), (advance 99 g).
  split; [exact (detect_pose_eq d photos g P)|].
  split; [rewrite length_points_from; reflexivity|].
  split; [|exact pose_y_increasing].
  intros i name H. exists (point_at (advance (3 * i) g) i name).
  split; [exact (nth_landmark g i name H)|].
  apply point_at_ok, valid_advance, V.
Qed.

Lemma pose_detection_landmarks_witness :
  exists points g',
    detect_pose (VDict [("photos", VList [VStr "front.jpg"])]) zero_draws
    = Ok (pose_answer points, g')
    /\ List.length points = 33%nat
    /\ (forall i name,
           nth_error
             ["nose"; "left_eye_inner"; "left_eye"; "left_eye_outer";
              "right_eye_inner"; "right_eye"; "right_eye_outer";
              "left_ear"; "right_ear"; "mouth_left"; "mouth_right";
              "left_shoulder"; "right_shoulder"; "left_elbow"; "right_elbow";
              "left_wrist"; "right_wrist"; "left_pinky"; "right_pinky";
              "left_index"; "right_index"; "left_thumb"; "right_thumb";
              "left_hip"; "right_hip"; "left_knee"; "right_knee";
              "left_ankle"; "right_ankle"; "left_heel"; "right_heel";
              "left_foot_index"; "right_foot_index"] i
           = Some name ->
           exists p, nth_error points i = Some p /\ landmark_ok i name p)
    /\ (forall i j, (i < j < 33)%nat -> flt (pose_y i) (pose_y j) = true).
Proof.
  exact (pose_detection_landmarks [("photos", VList [VStr "front.jpg"])]
           [VStr "front.jpg"] zero_draws valid_zero_draws eq_refl).
Defined.

(** C9.  Every answer of pose detection carries [averageConfidence] 0.92,
    whatever the confidences of its points; it is not their average: for
    the same request there are draws for which the average of the 33
    per-point confidences is not 0.92. *)
Theorem average_confidence_is_constant data g resp g' :
  detect_pose data g = Ok (resp, g') ->
  (exists points, resp = pose_answer points)
  /\ (exists points g0 g0',
         valid g0
         /\ detect_pose data g0 = Ok (pose_answer points, g0')
         /\ List.length (confidences points) = 33%nat
         /\ feq (average (confidences points)) (lit 0.92) = false).
Proof.
  intros H.
  assert (L : exists d n, data = VDict d /\ len (request_photos d) = Ok n).
  { unfold detect_pose, bindM at 1 2 in H.
    destruct data as [ | | | | | |d]; try discriminate H.
    cbn [lift get] in H. fold (request_photos d) in H.
    destruct (len (request_photos d)) as [n|e] eqn:E; [|discriminate H].
    exists d, n. split; [reflexivity | exact E]. }
  destruct L as (d & n & -> & L).
  assert (Eq : forall g1, detect_pose (VDict d) g1
                 = Ok (pose_answer (points_from g1 (enumerate landmark_names)),
                       advance 99 g1)).
  { intros g1. unfold detect_pose, bindM at 1 2. cbn [lift get].
    fold (request_photos d). rewrite L. cbn [lift]. unfold bindM, enumerate.
    rewrite (for_eachM_points landmark_names 0 g1) by (cbn; lia). reflexivity. }
  split.
  - exists (points_from g (enumerate landmark_names)).
    rewrite (Eq g) in H.
    change resp with (match Ok (resp, g') with
                      | Ok (v, _) => v
                      | Raise _ => VNone
                      end).
    rewrite <- H. reflexivity.
  - exists (points_from zero_draws (enumerate landmark_names)), zero_draws,
           (advance 99 zero_draws).
    split; [exact valid_zero_draws|]. split; [apply Eq|].
    split; vm_compute; reflexivity.
Qed.

Lemma average_confidence_is_constant_witness :
  (exists points,
      pose_answer (points_from zero_draws (enumerate landmark_names))
      = pose_answer points)
  /\ (exists points g0 g0',
         valid g0
         /\ detect_pose (VDict []) g0 = Ok (pose_answer points, g0')
         /\ List.length (confidences points) = 33%nat
         /\ feq (average (confidences points)) (lit 0.92) = false).
Proof.
  exact (average_confidence_is_constant (VDict []) zero_draws _ _
           (detect_pose_eq [] [] zero_draws eq_refl)).
Defined.

(** *** Randomness *)

(** C10.  The answers of pose detection and of measurement extraction are
    not functions of the request: for every request there are two streams
    of draws under which pose detection gives different answers (the [x] of
    the first point differs) and measurement extraction gives different
    answers (the height differs). *)
Theorem outputs_depend_on_the_draws d photos :
  request_photos d = VList photos ->
  exists g1 g2,
    valid g1 /\ valid g2
    /\ (exists r1 r2 g1' g2' x1 x2,
           detect_pose (VDict d) g1 = Ok (r1, g1')
           /\ detect_pose (VDict d) g2 = Ok (r2, g2')
           /\ first_x r1 = Some x1 /\ first_x r2 = Some x2
           /\ feq x1 x2 = false
           /\ r1 <> r2)
    /\ (exists r1 r2 g1' g2' h1 h2,
           extract_measurements (VDict d) g1 = Ok (r1, g1')
           /\ extract_measurements (VDict d) g2 = Ok (r2, g2')
           /\ height_of r1 = Some h1 /\ height_of r2 = Some h2
           /\ feq h1 h2 = false
           /\ r1 <> r2).
Proof.
  intros P. exists zero_draws, half_draws.
  split; [exact valid_zero_draws|]. split; [exact valid_half_draws|].
  assert (D : forall (f : value -> option pyfloat) (r1 r2 : value) x1 x2,
             f r1 = Some x1 -> f r2 = Some x2 -> flt x1 x2 = true -> r1 <> r2).
  { intros f r1 r2 x1 x2 H1 H2 L E. apply (flt_neq x1 x2 L).
    rewrite E, H2 in H1. clear - H1. injection H1. auto. }
  split.
  - exists (pose_answer (points_from zero_draws (enumerate landmark_names))),
           (pose_answer (points_from half_draws (enumerate landmark_names))),
           (advance 99 zero_draws), (advance 99 half_draws),
           (pose_x (draw zero_draws 0)), (pose_x (draw half_draws 0)).
    split; [exact (detect_pose_eq d photos _ P)|].
    split; [exact (detect_pose_eq d photos _ P)|].
    split; [reflexivity|]. split; [reflexivity|].
    split; [vm_compute; reflexivity|].
    apply (D first_x _ _ (pose_x (draw zero_draws 0)) (pose_x (draw half_draws 0)));
      [reflexivity | reflexivity | vm_compute; reflexivity].
  - set (u := request_unit d). destruct (eq_str u "imperial") eqn:U.
    + exists (VDict [("measurements", VDict (imperial_measurements u zero_draws))]),
             (VDict [("measurements", VDict (imperial_measurements u half_draws))]),
             (advance 9 zero_draws), (advance 9 half_draws),
             (fdiv (stub_value 170 20 (draw zero_draws 0)) (lit 2.54)),
             (fdiv (stub_value 170 20 (draw half_draws 0)) (lit 2.54)).
      split; [exact (extract_imperial d _ U)|].
      split; [exact (extract_imperial d _ U)|].
      split; [reflexivity|]. split; [reflexivity|].
      split; [vm_compute; reflexivity|].
      apply (D height_of _ _
               (fdiv (stub_value 170 20 (draw zero_draws 0)) (lit 2.54))
               (fdiv (stub_value 170 20 (draw half_draws 0)) (lit 2.54)));
        [reflexivity | reflexivity | vm_compute; reflexivity].
    + exists (VDict [("measurements", VDict (metric_measurements u zero_draws))]),
             (VDict [("measurements", VDict (metric_measurements u half_draws))]),
             (advance 9 zero_draws), (advance 9 half_draws),
             (stub_value 170 20 (draw zero_draws 0)),
             (stub_value 170 20 (draw half_draws 0)).
      split; [exact (extract_metric d _ U)|].
      split; [exact (extract_metric d _ U)|].
      split; [reflexivity|]. split; [reflexivity|].
      split; [vm_compute; reflexivity|].
      apply (D height_of _ _ (stub_value 170 20 (draw zero_draws 0))
               (stub_value 170 20 (draw half_draws 0)));
        [reflexivity | reflexivity | vm_compute; reflexivity].
Qed.

Lemma outputs_depend_on_the_draws_witness :
  exists g1 g2,
    valid g1 /\ valid g2
    /\ (exists r1 r2 g1' g2' x1 x2,
           detect_pose (VDict []) g1 = Ok (r1, g1')
           /\ detect_pose (VDict []) g2 = Ok (r2, g2')
           /\ first_x r1 = Some x1 /\ first_x r2 = Some x2
           /\ feq x1 x2 = false
           /\ r1 <> r2)
    /\ (exists r1 r2 g1' g2' h1 h2,
           extract_measurements (VDict []) g1 = Ok (r1, g1')
           /\ extract_measurements (VDict []) g2 = Ok (r2, g2')
           /\ height_of r1 = Some h1 /\ height_of r2 = Some h2
           /\ feq h1 h2 = false
           /\ r1 <> r2).
Proof.
  exact (outputs_depend_on_the_draws [] [] eq_refl).
Defined.

(* ================================================================== *)
(** ** Further properties of the handlers *)

Module LoopFacts.
Import Binary64 Py Random App Spec.
Import StringFacts HandlerFacts.
Open Scope string_scope.

(** *** Loops, once more *)

Lemma for_each_inv {A B} (f : A -> result B) l bs :
  for_each f l = Ok bs -> Forall2 (fun a b => f a = Ok b) l bs.
Proof.
  revert bs. induction l as [|a l IH]; intros bs H; cbn [for_each] in H.
  - assert (bs = []) as -> by congruence. constructor.
  - destruct (f a) as [b|e] eqn:Fa; cbn [bind] in H; [|discriminate H].
    destruct (for_each f l) as [bs'|e]; cbn [bind] in H; [|discriminate H].
    assert (bs = b :: bs') as -> by congruence.
    constructor; [exact Fa | apply IH; reflexivity].
Qed.

Lemma for_each_first_raise {A B} (f : A -> result B) good bad rest e :
  Forall (fun a => exists b, f a = Ok b) good -> f bad = Raise e ->
  for_each f (good ++ bad :: rest) = Raise e.
Proof.
  intros G E. induction G as [|a good (b & Fa) _ IH]; cbn [app for_each].
  - rewrite E. reflexivity.
  - rewrite Fa. cbn [bind]. rewrite IH. reflexivity.
Qed.

Lemma remove_background_loop d photos :
  request_photos d = VList photos ->
  remove_background (VDict d)
  = (processed_photos <- for_each process photos ;;
     Ok (VDict [("processedPhotos", VList processed_photos)]))%py.
Proof.
  intros P. unfold remove_background. cbn [get bind]. fold (request_photos d).
  rewrite P. reflexivity.
Qed.

Lemma process_ok photo out :
  process photo = Ok out ->
  exists url type, has_url_type photo url type /\ out = processed (masked_url url) type.
Proof.
  unfold process. intros H.
  destruct photo as [ | | | | | |pd]; try discriminate H. cbn [getitem] in H.
  destruct (lookup "url" pd) as [u|] eqn:U; cbn [bind] in H; [|discriminate H].
  destruct u as [ | | | |url| | ]; try discriminate H. cbn [replace bind] in H.
  destruct (lookup "type" pd) as [type|] eqn:T; cbn [bind] in H; [|discriminate H].
  exists url, type. split; [exists pd; auto|].
  unfold processed, masked_url. congruence.
Qed.

Lemma process_has_url_type photo url type :
  has_url_type photo url type -> process photo = Ok (processed (masked_url url) type).
Proof.
  intros (pd & -> & U & T). unfold process. cbn [getitem]. rewrite U.
  cbn [bind replace]. rewrite T. reflexivity.
Qed.

Lemma length_append (a b : string) :
  String.length (a ++ b) = (String.length a + String.length b)%nat.
Proof. induction a as [|c a IH]; cbn; [reflexivity | rewrite IH; reflexivity]. Qed.

(** A replacement by a string at least as long does not shorten. *)
Lemma replace_from_length old new s :
  old <> "" -> (String.length old <= String.length new)%nat ->
  forall skip,
    (String.length s <= String.length (replace_from old new skip s) + skip)%nat.
Proof.
  intros N L. induction s as [|c s IH]; intros skip; [cbn; lia|].
  destruct skip as [|k]; cbn [replace_from].
  - destruct (prefix old (String c s)).
    + rewrite length_append. specialize (IH (String.length old - 1)%nat).
      assert (1 <= String.length old)%nat by (destruct old; [congruence | cbn; lia]).
      cbn [String.length]. lia.
    + specialize (IH 0%nat). cbn [String.length]. lia.
  - specialize (IH k). cbn [String.length]. lia.
Qed.

Lemma masked_url_length url : (String.length url <= String.length (masked_url url))%nat.
Proof.
  unfold masked_url, str_replace.
  pose proof (replace_from_length ".jpg" "_masked.jpg" url
                ltac:(discriminate) ltac:(cbn; lia) 0%nat) as A.
  pose proof (replace_from_length ".png" "_masked.png"
                (replace_from ".jpg" "_masked.jpg" 0 url)
                ltac:(discriminate) ltac:(cbn; lia) 0%nat) as B.
  lia.
Qed.

Lemma masked_url_suffix stem : masked_url (stem ++ "_masked") = masked_url stem ++ "_masked".
Proof.
  unfold masked_url.
  rewrite (str_replace_app ".jpg" "_masked.jpg" stem "_masked"); [|discriminate|no_straddle].
  change (str_replace "_masked" ".jpg" "_masked.jpg") with "_masked".
  rewrite (str_replace_app ".png" "_masked.png" _ "_masked"); [|discriminate|no_straddle].
  reflexivity.
Qed.

(** A key has a value in a dict exactly when it is one of its keys. *)
Lemma lookup_keys key (m : dict) :
  (exists v, lookup key m = Some v) <-> In key (map fst m).
Proof.
  induction m as [|[k v] m IH]; cbn [lookup map fst In].
  - split; [intros (v & H); discriminate H | intros []].
  - destruct (String.eqb k key) eqn:E.
    + apply String.eqb_eq in E. split; [intros _; left; exact E | intros _; exists v; reflexivity].
    + apply String.eqb_neq in E. rewrite IH. split; [intros H; right; exact H|].
      intros [H|H]; [contradiction | exact H].
Qed.

End LoopFacts.

Module DrawFacts.
Import Binary64 Binary64Facts Py Random App Spec.
Import RangeFacts ShapeFacts PoseFacts.
Open Scope string_scope.

Lemma agree_draw n g1 g2 k :
  agree n g1 g2 -> (k < n)%nat -> draw g1 (k + pos g1) = draw g2 (k + pos g2).
Proof. intros A H. unfold draw. rewrite (A k H). reflexivity. Qed.

Lemma agree_advance n m g1 g2 :
  agree (m + n) g1 g2 -> agree n (advance m g1) (advance m g2).
Proof.
  intros A k H. unfold advance. cbn [draws pos].
  replace (k + (m + pos g1))%nat with ((k + m) + pos g1)%nat by lia.
  replace (k + (m + pos g2))%nat with ((k + m) + pos g2)%nat by lia.
  apply A. lia.
Qed.

Lemma point_at_agree g1 g2 i name :
  agree 3 g1 g2 -> point_at g1 i name = point_at g2 i name.
Proof.
  intros A. unfold point_at.
  pose proof (agree_draw 3 g1 g2 0 A ltac:(lia)) as E0.
  pose proof (agree_draw 3 g1 g2 1 A ltac:(lia)) as E1.
  pose proof (agree_draw 3 g1 g2 2 A ltac:(lia)) as E2.
  cbn [Nat.add] in E0, E1, E2. rewrite E0, E1, E2. reflexivity.
Qed.

Lemma points_from_agree l : forall g1 g2,
  agree (3 * List.length l) g1 g2 -> points_from g1 l = points_from g2 l.
Proof.
  induction l as [|[i name] l IH]; intros g1 g2 A; [reflexivity|].
  cbn [points_from]. f_equal.
  - apply point_at_agree. intros k H. apply A. cbn [List.length]. lia.
  - apply IH, agree_advance. intros k H. apply A. cbn [List.length]. lia.
Qed.

(** The answer of pose detection for a request whose photos [len] accepts. *)
Lemma detect_pose_sized d n g :
  len (request_photos d) = Ok n ->
  detect_pose (VDict d) g
  = Ok (pose_answer (points_from g (enumerate landmark_names)), advance 99 g).
Proof.
  intros L. unfold detect_pose, bindM at 1 2. cbn [lift get].
  fold (request_photos d). rewrite L. cbn [lift]. unfold bindM, enumerate.
  rewrite (for_eachM_points landmark_names 0 g) by (cbn; lia). reflexivity.
Qed.

Lemma metric_measurements_agree u g1 g2 :
  agree 9 g1 g2 -> metric_measurements u g1 = metric_measurements u g2.
Proof.
  intros A. unfold metric_measurements. cbv zeta.
  rewrite (agree_draw 9 g1 g2 0 A), (agree_draw 9 g1 g2 1 A), (agree_draw 9 g1 g2 2 A),
    (agree_draw 9 g1 g2 3 A), (agree_draw 9 g1 g2 4 A), (agree_draw 9 g1 g2 5 A),
    (agree_draw 9 g1 g2 6 A), (agree_draw 9 g1 g2 7 A), (agree_draw 9 g1 g2 8 A) by lia.
  reflexivity.
Qed.

Lemma imperial_measurements_agree u g1 g2 :
  agree 9 g1 g2 -> imperial_measurements u g1 = imperial_measurements u g2.
Proof.
  intros A. unfold imperial_measurements. cbv zeta.
  rewrite (agree_draw 9 g1 g2 0 A), (agree_draw 9 g1 g2 1 A), (agree_draw 9 g1 g2 2 A),
    (agree_draw 9 g1 g2 3 A), (agree_draw 9 g1 g2 4 A), (agree_draw 9 g1 g2 5 A),
    (agree_draw 9 g1 g2 6 A), (agree_draw 9 g1 g2 7 A), (agree_draw 9 g1 g2 8 A) by lia.
  reflexivity.
Qed.

Lemma within_finite a b v :
  within (Fin a) (Fin b) v -> exists y, v = Fin y /\ (a <= y)%Q /\ (y <= b)%Q.
Proof.
  intros [L U]. destruct v as [y|s|]; cbn [fle] in L, U.
  - exists y. split; [reflexivity|]. split; apply Qle_bool_iff; assumption.
  - destruct s; discriminate.
  - discriminate.
Qed.

End DrawFacts.

Module RatioFacts.
Import Binary64 Binary64Facts Py Random App Spec.
Import RangeFacts HandlerFacts.
Open Scope Q_scope.

(** An integer below [2^53] in magnitude is a float. *)
Lemma round_int z : (Z.abs z < 2 ^ 53)%Z -> round (inject_Z z) == inject_Z z.
Proof.
  intros H. destruct (Z.eq_dec z 0) as [->|N]; [reflexivity|].
  assert (NZ : ~ inject_Z z == 0).
  { intros C. apply N. change 0 with (inject_Z 0) in C.
    unfold Qeq in C. cbn in C. lia. }
  destruct (ilog2_spec _ NZ) as [L _].
  assert (A : Qabs (inject_Z z) < pow2 53).
  { rewrite pow2_Z by lia. apply Qabs_Qlt_condition.
    rewrite <- inject_Z_opp, <- !Zlt_Qlt. lia. }
  assert (E : (ilog2 (inject_Z z) < 53)%Z).
  { destruct (Z_lt_le_dec (ilog2 (inject_Z z)) 53) as [C|C]; [exact C|].
    pose proof (pow2_le 53 _ C). lra. }
  rewrite round_spec. set (e := cexp (inject_Z z)).
  assert (He : (-1074 <= e <= 0)%Z) by (unfold e, cexp; lia).
  assert (S : inject_Z z / pow2 e == inject_Z (z * 2 ^ (- e))).
  { rewrite inject_Z_mult, <- pow2_Z by lia. unfold pow2. rewrite Qpower_opp.
    reflexivity. }
  rewrite (rne_comp _ _ S), rne_Z, inject_Z_mult, <- pow2_Z by lia.
  rewrite <- Qmult_assoc, <- pow2_add. replace (- e + e)%Z with 0%Z by lia.
  change (pow2 0) with 1. ring.
Qed.

Lemma to_float_exact z : (Z.abs z < 2 ^ 53)%Z ->
  exists c, to_float (NInt z) = Ok (Fin c) /\ c == inject_Z z.
Proof.
  intros H. cbn [to_float]. unfold of_Q. cbv zeta.
  pose proof (round_int z H) as R.
  assert (E : Qle_bool (Qabs (round (inject_Z z))) max_finite = true).
  { apply Qle_bool_iff. rewrite R. apply Qabs_Qle_condition.
    unfold max_finite. rewrite <- inject_Z_opp, <- !Zle_Qle.
    assert (2 ^ 53 <= big)%Z by (vm_compute; discriminate). lia. }
  rewrite E. exists (round (inject_Z z)). split; [reflexivity | exact R].
Qed.

Lemma Qeq_bool_false q : ~ q == 0 -> Qeq_bool q 0 = false.
Proof.
  intros H. destruct (Qeq_bool q 0) eqn:E; [|reflexivity].
  apply Qeq_bool_iff in E. contradiction.
Qed.

(** What an exact measurement is to arithmetic. *)
Lemma exact_num v a : exact v = Some a ->
  (exists z, as_num v = Ok (NInt z) /\ (Z.abs z < 2 ^ 53)%Z /\ a = inject_Z z)
  \/ as_num v = Ok (NFloat (Fin a)).
Proof.
  destruct v as [ |b|z|f| | | ]; cbn [exact as_num]; try discriminate.
  - intros H. left. exists (if b then 1 else 0)%Z.
    split; [reflexivity|]. split; [destruct b; reflexivity|].
    destruct b; injection H as <-; reflexivity.
  - destruct (Z.ltb_spec (Z.abs z) (2 ^ 53)) as [L|L]; [|discriminate].
    intros H. left. exists z. split; [reflexivity|]. split; [exact L | congruence].
  - destruct f as [q| |]; try discriminate. intros H. right. congruence.
Qed.

(** A division of exact measurements that returns, returns the float
    nearest to the exact quotient; and it returns when the divisor is not
    zero. *)
Lemma truediv_exact v w a b f :
  exact v = Some a -> exact w = Some b -> truediv_values v w = Ok f ->
  ~ b == 0 /\ f = of_Q (a / b).
Proof.
  intros Ea Eb. unfold truediv_values.
  destruct (exact_num v a Ea) as [(x & -> & Hx & ->)| ->];
    destruct (exact_num w b Eb) as [(y & -> & Hy & ->)| ->]; cbn [bind].
  - cbn [truediv]. destruct (Z.eqb_spec y 0) as [|N]; [discriminate|].
    intros H. split.
    + intros C. apply N. unfold Qeq in C. cbn in C. lia.
    + destruct (of_Q (inject_Z x / inject_Z y)) as [q|s|]; congruence.
  - unfold truediv. destruct (to_float_exact x Hx) as (cx & -> & Cx).
    cbn [bind to_float is_zero].
    destruct (Qeq_bool b 0) eqn:Z; [discriminate|]. intros H. split.
    + intros C. apply Qeq_bool_iff in C. congruence.
    + cbn [fdiv] in H. rewrite Z in H.
      rewrite (of_Q_comp (inject_Z x / b) (cx / b)) by (rewrite Cx; reflexivity).
      congruence.
  - unfold truediv. destruct (to_float_exact y Hy) as (cy & -> & Cy).
    cbn [bind to_float is_zero].
    destruct (Qeq_bool cy 0) eqn:Z; [discriminate|]. intros H. split.
    + intros C. rewrite <- Cy in C. apply Qeq_bool_iff in C. congruence.
    + cbn [fdiv] in H. rewrite Z in H.
      rewrite (of_Q_comp (a / inject_Z y) (a / cy)) by (rewrite Cy; reflexivity).
      congruence.
  - unfold truediv. cbn [bind to_float is_zero].
    destruct (Qeq_bool b 0) eqn:Z; [discriminate|]. intros H. split.
    + intros C. apply Qeq_bool_iff in C. congruence.
    + cbn [fdiv] in H. rewrite Z in H. congruence.
Qed.

Lemma exact_number v a : exact v = Some a -> number v.
Proof.
  destruct v as [ |b|z|f| | | ]; cbn [exact number]; try discriminate; auto.
  destruct (Z.ltb_spec (Z.abs z) (2 ^ 53)) as [L|L]; [|discriminate].
  intros _. assert (2 ^ 53 <= big)%Z by (vm_compute; discriminate). lia.
Qed.

Lemma exact_nonzero w b : exact w = Some b -> ~ b == 0 -> zero w = false.
Proof.
  destruct w as [ |c|z|f| | | ]; cbn [exact zero]; try discriminate.
  - destruct c; intros H N; [reflexivity|]. exfalso. apply N.
    injection H as <-. reflexivity.
  - destruct (Z.ltb_spec (Z.abs z) (2 ^ 53)) as [L|L]; [|discriminate].
    intros H N. injection H as <-. apply Z.eqb_neq. intros ->. apply N. reflexivity.
  - destruct f as [q| |]; try discriminate. intros H N. injection H as <-.
    cbn [is_zero]. apply Qeq_bool_false, N.
Qed.

Lemma truediv_exact_ok v w a b :
  exact v = Some a -> exact w = Some b -> ~ b == 0 ->
  truediv_values v w = Ok (of_Q (a / b)).
Proof.
  intros Ea Eb N.
  destruct (truediv_ok v w (exact_number v a Ea) (exact_number w b Eb)
              (exact_nonzero w b Eb N)) as (f & H).
  destruct (truediv_exact v w a b f Ea Eb H) as [_ ->]. exact H.
Qed.

Lemma abs_gt r m : m < Qabs r -> r < - m \/ m < r.
Proof. apply Qabs_case; intros; lra. Qed.

Lemma Qneg_true r : Qneg r = true -> r < 0.
Proof.
  unfold Qneg. intros H. apply negb_true_iff in H. apply Qle_bool_false, H.
Qed.

Lemma Qneg_false r : Qneg r = false -> 0 <= r.
Proof.
  unfold Qneg. intros H. apply negb_false_iff in H. apply Qle_bool_iff, H.
Qed.

Lemma max_finite_pos : 0 < max_finite.
Proof. reflexivity. Qed.

(** The comparison of two rounded rationals never inverts the rationals. *)
Lemma flt_of_Q_inv q c : flt (of_Q q) (of_Q c) = true -> q < c.
Proof.
  intros H. destruct (Qlt_le_dec q c) as [L|L]; [exact L|exfalso].
  pose proof (round_mono c q L) as M. pose proof max_finite_pos as P.
  unfold of_Q in H. cbv zeta in H.
  destruct (Qle_bool (Qabs (round q)) max_finite) eqn:Eq;
    destruct (Qle_bool (Qabs (round c)) max_finite) eqn:Ec; cbn [flt] in H.
  - apply negb_true_iff in H.
    assert (Qle_bool (round c) (round q) = true) by (apply Qle_bool_iff, M). congruence.
  - apply Qle_bool_iff, Qabs_Qle_condition in Eq. apply Qle_bool_false, abs_gt in Ec.
    apply negb_true_iff, Qneg_false in H. lra.
  - apply Qle_bool_iff, Qabs_Qle_condition in Ec. apply Qle_bool_false, abs_gt in Eq.
    apply Qneg_true in H. lra.
  - apply andb_true_iff in H as [Hq Hc].
    apply Qneg_true in Hq. apply negb_true_iff, Qneg_false in Hc. lra.
Qed.

(** A quotient that is not positive is below 0.75 as a float. *)
Lemma flt_nonpos q : q <= 0 -> flt (of_Q q) (lit 0.75) = true.
Proof.
  intros H. pose proof (round_mono q 0 H) as M. rewrite round_0 in M.
  replace (lit 0.75) with (Fin (3 # 4)) by (vm_compute; reflexivity).
  unfold of_Q. cbv zeta.
  destruct (Qle_bool (Qabs (round q)) max_finite) eqn:E; cbn [flt].
  - apply negb_true_iff. destruct (Qle_bool (3 # 4) (round q)) eqn:C; [|reflexivity].
    apply Qle_bool_iff in C. lra.
  - apply Qle_bool_false, abs_gt in E. pose proof max_finite_pos.
    unfold Qneg. apply negb_true_iff.
    destruct (Qle_bool 0 (round q)) eqn:C; [|reflexivity]. apply Qle_bool_iff in C. lra.
Qed.

(** What classification computed, when it returned. *)
Lemma classify_inv d resp :
  classify_body_type (VDict d) = Ok resp ->
  exists m whr shr,
    lookup "measurements" d = Some (VDict m)
    /\ truediv_values (measurement m "waistCircumference" 80)
                      (measurement m "hipCircumference" 100) = Ok whr
    /\ truediv_values (measurement m "shoulderWidth" 45)
                      (measurement m "hipCircumference" 100) = Ok shr
    /\ resp = classification (first_match whr shr).
Proof.
  unfold classify_body_type. cbn [get bind]. intros H.
  destruct (lookup "measurements" d) as [v|] eqn:M; [|discriminate H].
  destruct v as [ | | | | | |m]; try discriminate H. cbn [get bind] in H.
  fold (measurement m "waistCircumference" 80) (measurement m "hipCircumference" 100)
       (measurement m "shoulderWidth" 45) in H.
  destruct (truediv_values (measurement m "waistCircumference" 80)
                           (measurement m "hipCircumference" 100)) as [whr|e] eqn:W;
    cbn [bind] in H; [|discriminate H].
  destruct (truediv_values (measurement m "shoulderWidth" 45)
                           (measurement m "hipCircumference" 100)) as [shr|e] eqn:S;
    cbn [bind] in H; [|discriminate H].
  exists m, whr, shr. split; [reflexivity|]. split; [exact W|]. split; [exact S|].
  apply (f_equal (fun r => match r with Ok v => v | Raise _ => VNone end)) in H.
  cbv beta iota in H. symmetry. exact H.
Qed.

Lemma classification_inj s t : classification s = classification t -> s = t.
Proof.
  intros H.
  change s with (match classification s with
                 | VDict ((_, VStr x) :: _) => x
                 | _ => EmptyString
                 end).
  rewrite H. reflexivity.
Qed.

(** *** Integers too large for a float *)

Lemma round_2_1024 : round (inject_Z (2 ^ 1024)) = inject_Z (2 ^ 1024).
Proof. vm_compute. reflexivity. Qed.

Lemma of_Q_overflows q : inject_Z (2 ^ 1024) <= Qabs q -> exists s, of_Q q = Inf s.
Proof.
  intros H. unfold of_Q.
  assert (B : inject_Z big < inject_Z (2 ^ 1024)) by (rewrite <- Zlt_Qlt; vm_compute; reflexivity).
  assert (P0 : 0 < inject_Z (2 ^ 1024))
    by (change 0 with (inject_Z 0); rewrite <- Zlt_Qlt; reflexivity).
  assert (R : inject_Z (2 ^ 1024) <= Qabs (round q)).
  { destruct (Qlt_le_dec q 0) as [N|P].
    - rewrite Qabs_neg in H by lra.
      pose proof (round_mono _ _ H) as M. rewrite round_2_1024, round_opp in M.
      assert (round q <= 0) by lra. rewrite Qabs_neg by assumption. exact M.
    - rewrite Qabs_pos in H by assumption.
      pose proof (round_mono _ _ H) as M. rewrite round_2_1024 in M.
      rewrite Qabs_pos by lra. exact M. }
  destruct (Qle_bool (Qabs (round q)) max_finite) eqn:E.
  - apply Qle_bool_iff in E. unfold max_finite in E. lra.
  - eexists. reflexivity.
Qed.

Lemma to_float_overflows z : (2 ^ 1024 <= Z.abs z)%Z -> to_float (NInt z) = Raise OverflowError.
Proof.
  intros H. cbn [to_float].
  destruct (of_Q_overflows (inject_Z z)) as (s & ->); [|reflexivity].
  change (Qabs (inject_Z z)) with (inject_Z (Z.abs z)). rewrite <- Zle_Qle. exact H.
Qed.

Lemma truediv_overflows z f : (2 ^ 1024 <= Z.abs z)%Z ->
  truediv (NInt z) (NFloat f) = Raise OverflowError
  /\ truediv (NFloat f) (NInt z) = Raise OverflowError.
Proof.
  intros H. pose proof (to_float_overflows z H) as T.
  split; unfold truediv; cbn [to_float bind] in *; rewrite T; reflexivity.
Qed.

End RatioFacts.

Import LoopFacts DrawFacts RatioFacts.

(** *** Requests the handlers do not expect *)

(** X1.  A request body that is not a JSON object (a list, a string, a
    number, null) makes each of the four handlers raise AttributeError at
    its first [data.get]. *)
Theorem non_object_body_raises data g :
  (forall d, data <> VDict d) ->
  remove_background data = Raise AttributeError
  /\ detect_pose data g = Raise AttributeError
  /\ extract_measurements data g = Raise AttributeError
  /\ classify_body_type data = Raise AttributeError.
Proof.
  intros N. destruct data as [ | | | | | |d]; try (repeat split; reflexivity).
  exfalso. exact (N d eq_refl).
Qed.

Lemma non_object_body_raises_witness :
  remove_background (VList []) = Raise AttributeError
  /\ detect_pose (VList []) zero_draws = Raise AttributeError
  /\ extract_measurements (VList []) zero_draws = Raise AttributeError
  /\ classify_body_type (VList []) = Raise AttributeError.
Proof.
  apply (non_object_body_raises (VList []) zero_draws). intros d. discriminate.
Defined.

(** X2.  When [photos] is null, a boolean or a number, background removal
    and pose detection both raise TypeError: [len(photos)] in the first log
    line fails, also in pose detection, which uses the photos for nothing
    else.  The answer is the generic 500. *)
Theorem unsized_photos_raise d g :
  unsized (request_photos d) ->
  remove_background (VDict d) = Raise TypeError
  /\ detect_pose (VDict d) g = Raise TypeError
  /\ status (respond (remove_background (VDict d))) = 500%Z.
Proof.
  intros U.
  assert (L : len (request_photos d) = Raise TypeError)
    by (destruct (request_photos d); try contradiction; reflexivity).
  assert (R : remove_background (VDict d) = Raise TypeError).
  { unfold remove_background. cbn [get bind]. fold (request_photos d).
    rewrite L. reflexivity. }
  split; [exact R|]. split; [|rewrite R; reflexivity].
  unfold detect_pose, bindM at 1 2. cbn [lift get]. fold (request_photos d).
  rewrite L. reflexivity.
Qed.

Lemma unsized_photos_raise_witness :
  remove_background (VDict [("photos", VNone)]) = Raise TypeError
  /\ detect_pose (VDict [("photos", VNone)]) zero_draws = Raise TypeError
  /\ status (respond (remove_background (VDict [("photos", VNone)]))) = 500%Z.
Proof. exact (unsized_photos_raise [("photos", VNone)] zero_draws I). Defined.

(** X3.  When [photos] is a string or an object instead of a list, the loop
    of background removal runs over its characters or keys; each of them is a
    string, which cannot be subscripted by ['url'], so the handler raises
    TypeError, unless the string or object is empty, where it succeeds with
    no processed photo. *)
Theorem text_or_object_photos d :
  (forall s, request_photos d = VStr s ->
     remove_background (VDict d)
     = match s with
       | EmptyString => Ok (VDict [("processedPhotos", VList [])])
       | String _ _ => Raise TypeError
       end)
  /\ (forall m, request_photos d = VDict m ->
        remove_background (VDict d)
        = match m with
          | [] => Ok (VDict [("processedPhotos", VList [])])
          | _ :: _ => Raise TypeError
          end).
Proof.
  split; intros x P; unfold remove_background; cbn [get bind];
    fold (request_photos d); rewrite P; cbn [len iter bind];
    destruct x as [|? ?]; reflexivity.
Qed.

Lemma text_or_object_photos_witness :
  remove_background (VDict [("photos", VStr "front.jpg")]) = Raise TypeError.
Proof.
  exact (proj1 (text_or_object_photos [("photos", VStr "front.jpg")]) "front.jpg" eq_refl).
Defined.

(** *** Background removal, entry by entry *)

(** X4.  For a list of photos, background removal succeeds exactly when
    every entry is an object with a string [url] and a [type]; the answer is
    then the list of their processed records. *)
Theorem remove_background_succeeds_iff d photos resp :
  request_photos d = VList photos ->
  remove_background (VDict d) = Ok resp
  <-> exists entries,
        Forall2 (fun p e => has_url_type p (fst e) (snd e)) photos entries
        /\ resp = VDict [("processedPhotos",
                          VList (map (fun e => processed (masked_url (fst e)) (snd e))
                                     entries))].
Proof.
  intros P. split.
  - rewrite (remove_background_loop d photos P). intros H.
    destruct (for_each process photos) as [outs|e] eqn:F; cbn [bind] in H;
      [|discriminate H].
    apply for_each_inv in F.
    assert (E : exists entries,
               Forall2 (fun p e => has_url_type p (fst e) (snd e)) photos entries
               /\ outs = map (fun e => processed (masked_url (fst e)) (snd e)) entries).
    { clear H P. induction F as [|p out photos outs Hp _ (entries & F2 & ->)].
      - exists []. split; constructor.
      - destruct (process_ok p out Hp) as (url & type & HU & ->).
        exists ((url, type) :: entries). split; [constructor; assumption | reflexivity]. }
    destruct E as (entries & F2 & ->). exists entries. split; [exact F2|]. congruence.
  - intros (entries & F & ->). exact (remove_background_eq d photos entries P F).
Qed.

Lemma remove_background_succeeds_iff_witness :
  remove_background
    (VDict [("photos", VList [VDict [("url", VStr "a.png"); ("type", VStr "side")]])])
  = Ok (VDict [("processedPhotos", VList [processed "a_masked.png" (VStr "side")])])
  <-> exists entries,
        Forall2 (fun p e => has_url_type p (fst e) (snd e))
                [VDict [("url", VStr "a.png"); ("type", VStr "side")]] entries
        /\ VDict [("processedPhotos", VList [processed "a_masked.png" (VStr "side")])]
           = VDict [("processedPhotos",
                     VList (map (fun e => processed (masked_url (fst e)) (snd e))
                                entries))].
Proof.
  exact (remove_background_succeeds_iff
           [("photos", VList [VDict [("url", VStr "a.png"); ("type", VStr "side")]])]
           [VDict [("url", VStr "a.png"); ("type", VStr "side")]]
           (VDict [("processedPhotos", VList [processed "a_masked.png" (VStr "side")])])
           eq_refl).
Defined.

(** X5.  A url that contains neither [.jpg] nor [.png] is returned as it
    is: the match is case sensitive and knows no other extension, so
    [front.JPG] or [front.jpeg] come back unmasked. *)
Theorem urls_without_extension_unchanged d photos entries :
  request_photos d = VList photos ->
  Forall2 (fun p e => has_url_type p (fst e) (snd e)) photos entries ->
  Forall (fun e => occurs ".jpg" (fst e) = false /\ occurs ".png" (fst e) = false)
         entries ->
  remove_background (VDict d)
  = Ok (VDict [("processedPhotos",
                VList (map (fun e => processed (fst e) (snd e)) entries))]).
Proof.
  intros P F C. rewrite (remove_background_eq d photos entries P F).
  replace (map (fun e => processed (masked_url (fst e)) (snd e)) entries)
    with (map (fun e => processed (fst e) (snd e)) entries); [reflexivity|].
  apply map_ext_in. intros e He.
  rewrite Forall_forall in C. destruct (C e He) as [J G].
  rewrite (masked_url_clean (fst e) J G). reflexivity.
Qed.

Lemma urls_without_extension_unchanged_witness :
  remove_background
    (VDict [("photos", VList [VDict [("url", VStr "front.JPG"); ("type", VStr "front")]])])
  = Ok (VDict [("processedPhotos", VList [processed "front.JPG" (VStr "front")])]).
Proof.
  refine (urls_without_extension_unchanged
            [("photos", VList [VDict [("url", VStr "front.JPG"); ("type", VStr "front")]])]
            _ [("front.JPG", VStr "front")] eq_refl _ _).
  - repeat constructor. eexists. repeat split; reflexivity.
  - repeat constructor.
Defined.

(** X6.  Masking is not idempotent: the derived url of a derived url ends
    in [_masked_masked.jpg] ([_masked_masked.png]) and differs from the
    derived url. *)
Theorem masking_is_not_idempotent stem :
  masked_url (masked_url (stem ++ ".jpg"))
  = masked_url (masked_url stem) ++ "_masked_masked.jpg"
  /\ masked_url (masked_url (stem ++ ".png"))
     = masked_url (masked_url stem) ++ "_masked_masked.png"
  /\ masked_url (masked_url (stem ++ ".jpg")) <> masked_url (stem ++ ".jpg")
  /\ masked_url (masked_url (stem ++ ".png")) <> masked_url (stem ++ ".png").
Proof.
  assert (A : forall x e, x ++ "_masked" ++ e = (x ++ "_masked") ++ e)
    by (intros x e; rewrite append_assoc; reflexivity).
  assert (J : masked_url (masked_url (stem ++ ".jpg"))
              = masked_url (masked_url stem) ++ "_masked_masked.jpg").
  { rewrite masked_url_jpg. change "_masked.jpg" with ("_masked" ++ ".jpg").
    rewrite A, masked_url_jpg, masked_url_suffix, append_assoc. reflexivity. }
  assert (G : masked_url (masked_url (stem ++ ".png"))
              = masked_url (masked_url stem) ++ "_masked_masked.png").
  { rewrite masked_url_png. change "_masked.png" with ("_masked" ++ ".png").
    rewrite A, masked_url_png, masked_url_suffix, append_assoc. reflexivity. }
  pose proof (masked_url_length (masked_url stem)) as L.
  split; [exact J|]. split; [exact G|]. split; intros E.
  - rewrite J, masked_url_jpg in E. apply (f_equal String.length) in E.
    rewrite !length_append in E. cbn [String.length] in E. lia.
  - rewrite G, masked_url_png in E. apply (f_equal String.length) in E.
    rewrite !length_append in E. cbn [String.length] in E. lia.
Qed.

(** X7.  The first entry the loop cannot process decides the exception,
    whatever follows it: an entry that is not an object raises TypeError,
    an object without [url] KeyError, an object whose [url] is not a string
    AttributeError, an object with a string [url] and no [type] KeyError. *)
Theorem first_bad_photo_decides d good bad rest entries :
  request_photos d = VList (good ++ bad :: rest) ->
  Forall2 (fun p e => has_url_type p (fst e) (snd e)) good entries ->
  ((forall pd, bad <> VDict pd) -> remove_background (VDict d) = Raise TypeError)
  /\ (forall pd, bad = VDict pd -> lookup "url" pd = None ->
        remove_background (VDict d) = Raise KeyError)
  /\ (forall pd u, bad = VDict pd -> lookup "url" pd = Some u ->
        (forall s, u <> VStr s) ->
        remove_background (VDict d) = Raise AttributeError)
  /\ (forall pd s, bad = VDict pd -> lookup "url" pd = Some (VStr s) ->
        lookup "type" pd = None ->
        remove_background (VDict d) = Raise KeyError).
Proof.
  intros P F. rewrite (remove_background_loop d _ P).
  assert (G : Forall (fun a => exists b, process a = Ok b) good).
  { clear P. induction F as [|p e good entries H _ IH]; constructor; [|exact IH].
    eexists. exact (process_has_url_type p _ _ H). }
  assert (R : forall e, process bad = Raise e ->
              (outs <- for_each process (good ++ bad :: rest) ;;
               Ok (VDict [("processedPhotos", VList outs)]))%py = Raise e).
  { intros e E. rewrite (for_each_first_raise process good bad rest e G E). reflexivity. }
  repeat split.
  - intros N. apply R. destruct bad; try reflexivity. exfalso. eapply N. reflexivity.
  - intros pd -> U. apply R. unfold process. cbn [getitem]. rewrite U. reflexivity.
  - intros pd u -> U N. apply R. unfold process. cbn [getitem]. rewrite U. cbn [bind].
    destruct u; try reflexivity. exfalso. eapply N. reflexivity.
  - intros pd s -> U T. apply R. unfold process. cbn [getitem]. rewrite U.
    cbn [bind replace]. rewrite T. reflexivity.
Qed.

Lemma first_bad_photo_decides_witness :
  remove_background
    (VDict [("photos", VList [VDict [("url", VStr "a.jpg"); ("type", VStr "front")];
                              VDict [("url", VInt 7); ("type", VStr "side")];
                              VInt 0])])
  = Raise AttributeError.
Proof.
  refine (proj1 (proj2 (proj2 (first_bad_photo_decides
            [("photos", VList [VDict [("url", VStr "a.jpg"); ("type", VStr "front")];
                               VDict [("url", VInt 7); ("type", VStr "side")];
                               VInt 0])]
            [VDict [("url", VStr "a.jpg"); ("type", VStr "front")]]
            (VDict [("url", VInt 7); ("type", VStr "side")])
            [VInt 0] [("a.jpg", VStr "front")] eq_refl _)))
            [("url", VInt 7); ("type", VStr "side")] (VInt 7) eq_refl eq_refl _).
  - repeat constructor. eexists. repeat split; reflexivity.
  - intros s. discriminate.
Defined.

(** *** What the stub answers depend on *)

(** X8.  The answer of pose detection depends on nothing but the next 99
    draws: two requests whose photos have a length, served by generators
    that agree on their next 99 draws, get the same answer, and each
    generator is left 99 draws further. *)
Theorem pose_depends_on_99_draws_only d1 d2 n1 n2 g1 g2 :
  len (request_photos d1) = Ok n1 ->
  len (request_photos d2) = Ok n2 ->
  agree 99 g1 g2 ->
  exists answer,
    detect_pose (VDict d1) g1 = Ok (answer, advance 99 g1)
    /\ detect_pose (VDict d2) g2 = Ok (answer, advance 99 g2).
Proof.
  intros L1 L2 A. exists (pose_answer (points_from g1 (enumerate landmark_names))).
  split; [exact (detect_pose_sized d1 n1 g1 L1)|].
  rewrite (detect_pose_sized d2 n2 g2 L2).
  rewrite (points_from_agree (enumerate landmark_names) g1 g2 A). reflexivity.
Qed.

Lemma pose_depends_on_99_draws_only_witness :
  exists answer,
    detect_pose (VDict []) zero_draws = Ok (answer, advance 99 zero_draws)
    /\ detect_pose (VDict [("photos", VStr "abc"); ("extra", VInt 1)])
                   (advance 5 zero_draws)
       = Ok (answer, advance 99 (advance 5 zero_draws)).
Proof.
  refine (pose_depends_on_99_draws_only
            [] [("photos", VStr "abc"); ("extra", VInt 1)] 0 3
            zero_draws (advance 5 zero_draws) eq_refl eq_refl _).
  intros k H. reflexivity.
Defined.

(** X9.  The answer of measurement extraction depends on the unit flag and
    the next nine draws only ([landmarks] is never read): two requests with
    the same flag, served by generators that agree on their next nine draws,
    get the same answer, and each generator is left nine draws further. *)
Theorem measurements_depend_on_unit_and_9_draws d1 d2 g1 g2 :
  request_unit d1 = request_unit d2 ->
  agree 9 g1 g2 ->
  exists answer,
    extract_measurements (VDict d1) g1 = Ok (answer, advance 9 g1)
    /\ extract_measurements (VDict d2) g2 = Ok (answer, advance 9 g2).
Proof.
  intros U A. destruct (eq_str (request_unit d1) "imperial") eqn:E.
  - eexists. split; [exact (extract_imperial d1 g1 E)|].
    rewrite U in E. rewrite (extract_imperial d2 g2 E), U.
    rewrite (imperial_measurements_agree _ g1 g2 A). reflexivity.
  - eexists. split; [exact (extract_metric d1 g1 E)|].
    rewrite U in E. rewrite (extract_metric d2 g2 E), U.
    rewrite (metric_measurements_agree _ g1 g2 A). reflexivity.
Qed.

Lemma measurements_depend_on_unit_and_9_draws_witness :
  exists answer,
    extract_measurements (VDict [("landmarks", VNone)]) half_draws
    = Ok (answer, advance 9 half_draws)
    /\ extract_measurements (VDict [("unit", VStr "metric"); ("landmarks", VInt 1)])
                            (advance 2 half_draws)
       = Ok (answer, advance 9 (advance 2 half_draws)).
Proof.
  refine (measurements_depend_on_unit_and_9_draws
            [("landmarks", VNone)] [("unit", VStr "metric"); ("landmarks", VInt 1)]
            half_draws (advance 2 half_draws) eq_refl _).
  intros k H. reflexivity.
Defined.

(** X10.  Every measurement answer has exactly the same eleven keys, each
    once: the nine measurements, [confidence] and [unit], whatever the
    request and the draws; and [unit] echoes the flag of the request,
    whatever value it is. *)
Theorem measurement_answer_keys d g :
  exists measurements,
    extract_measurements (VDict d) g
    = Ok (VDict [("measurements", VDict measurements)], advance 9 g)
    /\ (forall key,
          (exists v, lookup key measurements = Some v)
          <-> In key ["height"; "shoulderWidth"; "chestCircumference";
                      "waistCircumference"; "hipCircumference"; "armLength";
                      "inseam"; "neckCircumference"; "thighCircumference";
                      "confidence"; "unit"])
    /\ NoDup (map fst measurements)
    /\ lookup "unit" measurements = Some (request_unit d).
Proof.
  assert (K : forall ms : dict,
            map fst ms = ["height"; "shoulderWidth"; "chestCircumference";
                          "waistCircumference"; "hipCircumference"; "armLength";
                          "inseam"; "neckCircumference"; "thighCircumference";
                          "confidence"; "unit"] ->
            (forall key, (exists v, lookup key ms = Some v) <-> In key (map fst ms))
            /\ NoDup (map fst ms)).
  { intros ms E. split; [intros key; apply lookup_keys|].
    rewrite E. repeat constructor; cbn [In]; intuition discriminate. }
  destruct (eq_str (request_unit d) "imperial") eqn:E.
  - eexists. split; [exact (extract_imperial d g E)|].
    destruct (K (imperial_measurements (request_unit d) g) eq_refl) as [A B].
    split; [exact A|]. split; [exact B | reflexivity].
  - eexists. split; [exact (extract_metric d g E)|].
    destruct (K (metric_measurements (request_unit d) g) eq_refl) as [A B].
    split; [exact A|]. split; [exact B | reflexivity].
Qed.

(** X11.  The answer of measurement extraction is a request that body-type
    classification accepts: for every request and every stream of draws,
    classifying the extracted measurements, metric or imperial, returns one
    of the four body types. *)
Theorem extracted_measurements_classify d g :
  valid g ->
  exists resp g' body_type,
    extract_measurements (VDict d) g = Ok (resp, g')
    /\ classify_body_type resp = Ok (classification body_type)
    /\ In body_type body_types.
Proof.
  intros V. set (u := request_unit d).
  assert (K : forall ms,
            (exists w, lookup "waistCircumference" ms = Some (VFloat w)) ->
            (exists h, lookup "hipCircumference" ms = Some (VFloat h)
                       /\ is_zero h = false) ->
            (exists s, lookup "shoulderWidth" ms = Some (VFloat s)) ->
            exists t, classify_body_type (VDict [("measurements", VDict ms)])
                      = Ok (classification t) /\ In t body_types).
  { intros ms (w & Lw) (h & Lh & Zh) (s & Ls).
    assert (Mw : measurement ms "waistCircumference" 80 = VFloat w)
      by (unfold measurement; rewrite Lw; reflexivity).
    assert (Mh : measurement ms "hipCircumference" 100 = VFloat h)
      by (unfold measurement; rewrite Lh; reflexivity).
    assert (Ms : measurement ms "shoulderWidth" 45 = VFloat s)
      by (unfold measurement; rewrite Ls; reflexivity).
    destruct (truediv_ok (VFloat w) (VFloat h) I I Zh) as (whr & W).
    destruct (truediv_ok (VFloat s) (VFloat h) I I Zh) as (shr & S).
    exists (first_match whr shr). split; [|apply first_match_types].
    apply (classify_eq [("measurements", VDict ms)] ms whr shr eq_refl).
    - rewrite Mw, Mh. exact W.
    - rewrite Ms, Mh. exact S. }
  assert (Z : forall a b v, within (Fin a) (Fin b) v -> (0 < a)%Q -> is_zero v = false).
  { intros a b v W Pa. destruct (within_finite a b v W) as (y & -> & L & _).
    cbn [is_zero]. destruct (Qeq_bool y 0) eqn:E; [|reflexivity].
    apply Qeq_bool_iff in E. lra. }
  destruct (measurement_rows u u g "waistCircumference" 75 90 V
              ltac:(cbn; auto 10)) as (w & w' & Lw & Lw' & _).
  destruct (measurement_rows u u g "hipCircumference" 95 110 V
              ltac:(cbn; auto 10)) as (h & h' & Lh & Lh' & _ & Wh & Wh' & _).
  destruct (measurement_rows u u g "shoulderWidth" 40 50 V
              ltac:(cbn; auto 10)) as (s & s' & Ls & Ls' & _).
  destruct (eq_str u "imperial") eqn:E.
  - destruct (K (imperial_measurements u g)) as (t & C & T).
    + exists w'. exact Lw'.
    + exists h'. split; [exact Lh'|].
      replace (fdiv (of_int 95) (lit 2.54)) with (Fin (round (95 / 2.54)%Q)) in Wh'
        by (vm_compute; reflexivity).
      replace (fdiv (of_int 110) (lit 2.54)) with (Fin (round (110 / 2.54)%Q)) in Wh'
        by (vm_compute; reflexivity).
      apply (Z _ _ _ Wh'). vm_compute. reflexivity.
    + exists s'. exact Ls'.
    + eexists; eexists; exists t. split; [exact (extract_imperial d g E)|]. split; assumption.
  - destruct (K (metric_measurements u g)) as (t & C & T).
    + exists w. exact Lw.
    + exists h. split; [exact Lh|].
      change (of_int 95) with (Fin 95) in Wh. change (of_int 110) with (Fin 110) in Wh.
      apply (Z _ _ _ Wh). reflexivity.
    + exists s. exact Ls.
    + eexists; eexists; exists t. split; [exact (extract_metric d g E)|]. split; assumption.
Qed.

Lemma extracted_measurements_classify_witness :
  exists resp g' body_type,
    extract_measurements (VDict [("unit", VStr "imperial")]) half_draws = Ok (resp, g')
    /\ classify_body_type resp = Ok (classification body_type)
    /\ In body_type body_types.
Proof.
  exact (extracted_measurements_classify [("unit", VStr "imperial")] half_draws
           valid_half_draws).
Defined.

(** *** Classification at the edges *)

(** X12.  Rounding never makes the classifier cross a threshold the exact
    ratios do not cross.  For measurements that are finite floats or
    integers below 2^53 in magnitude: the hip is not zero when the handler
    answers, [hourglass] implies waist/hip < 0.75, [inverted-triangle]
    implies shoulder/hip > 0.5 and [rectangle] implies waist/hip > 0.85, in
    exact arithmetic. *)
Theorem classification_bounds_the_exact_ratios d m a b c t :
  lookup "measurements" d = Some (VDict m) ->
  exact (measurement m "waistCircumference" 80) = Some a ->
  exact (measurement m "hipCircumference" 100) = Some b ->
  exact (measurement m "shoulderWidth" 45) = Some c ->
  classify_body_type (VDict d) = Ok (classification t) ->
  (~ b == 0)%Q
  /\ (t = "hourglass" -> (a / b < 0.75)%Q)
  /\ (t = "inverted-triangle" -> (0.5 < c / b)%Q)
  /\ (t = "rectangle" -> (0.85 < a / b)%Q).
Proof.
  intros M Ea Eb Ec H.
  destruct (classify_inv d _ H) as (m' & whr & shr & M' & W & S & E).
  assert (m' = m) by congruence. subst m'.
  destruct (truediv_exact _ _ a b whr Ea Eb W) as [N ->].
  destruct (truediv_exact _ _ c b shr Ec Eb S) as [_ ->].
  apply classification_inj in E. clear H W S M M'.
  split; [exact N|]. unfold first_match, fgt, lit in E.
  destruct (flt (of_Q (a / b)) (of_Q 0.75)) eqn:F1.
  { apply flt_of_Q_inv in F1. repeat split; intros T; subst t;
      first [exact F1 | discriminate T]. }
  destruct (flt (of_Q 0.5) (of_Q (c / b))) eqn:F2.
  { apply flt_of_Q_inv in F2. repeat split; intros T; subst t;
      first [exact F2 | discriminate T]. }
  destruct (flt (of_Q 0.85) (of_Q (a / b))) eqn:F3.
  { apply flt_of_Q_inv in F3. repeat split; intros T; subst t;
      first [exact F3 | discriminate T]. }
  repeat split; intros T; subst t; discriminate T.
Qed.

Lemma classification_bounds_the_exact_ratios_witness :
  (~ 100 == 0)%Q
  /\ ("rectangle" = "hourglass" -> (90 / 100 < 0.75)%Q)
  /\ ("rectangle" = "inverted-triangle" -> (0.5 < 40 / 100)%Q)
  /\ ("rectangle" = "rectangle" -> (0.85 < 90 / 100)%Q).
Proof.
  apply (classification_bounds_the_exact_ratios
           [("measurements",
             VDict [("waistCircumference", VInt 90); ("hipCircumference", VInt 100);
                    ("shoulderWidth", VInt 40)])]
           [("waistCircumference", VInt 90); ("hipCircumference", VInt 100);
            ("shoulderWidth", VInt 40)]
           90 100 40 "rectangle"%string); vm_compute; reflexivity.
Defined.

(** X13.  A [measurements] field that is not an object raises
    AttributeError; a waist or hip measurement that is not a number (a
    string such as "80", null, a list) raises TypeError, and so does such a
    shoulder measurement once the first division has returned. *)
Theorem non_numeric_measurement_raises d :
  (forall v, lookup "measurements" d = Some v -> (forall m, v <> VDict m) ->
     classify_body_type (VDict d) = Raise AttributeError)
  /\ (forall m, lookup "measurements" d = Some (VDict m) ->
        numeric (measurement m "waistCircumference" 80) = false
        \/ numeric (measurement m "hipCircumference" 100) = false ->
        classify_body_type (VDict d) = Raise TypeError)
  /\ (forall m whr, lookup "measurements" d = Some (VDict m) ->
        truediv_values (measurement m "waistCircumference" 80)
                       (measurement m "hipCircumference" 100) = Ok whr ->
        numeric (measurement m "shoulderWidth" 45) = false ->
        classify_body_type (VDict d) = Raise TypeError).
Proof.
  assert (T : forall v w, numeric v = false \/ numeric w = false ->
              truediv_values v w = Raise TypeError).
  { intros v w [H|H]; unfold truediv_values.
    - destruct v; try discriminate H; reflexivity.
    - destruct w; try discriminate H; destruct v; reflexivity. }
  split; [|split].
  - intros v M N. unfold classify_body_type. cbn [get bind]. rewrite M.
    destruct v; try reflexivity. exfalso. eapply N. reflexivity.
  - intros m M H. unfold classify_body_type. cbn [get bind]. rewrite M. cbn [get bind].
    fold (measurement m "waistCircumference" 80) (measurement m "hipCircumference" 100).
    rewrite (T _ _ H). reflexivity.
  - intros m whr M W H. unfold classify_body_type. cbn [get bind]. rewrite M.
    cbn [get bind].
    fold (measurement m "waistCircumference" 80) (measurement m "hipCircumference" 100)
         (measurement m "shoulderWidth" 45).
    rewrite W. cbn [bind]. rewrite (T _ _ (or_introl H)). reflexivity.
Qed.

Lemma non_numeric_measurement_raises_witness :
  classify_body_type
    (VDict [("measurements", VDict [("waistCircumference", VStr "80")])])
  = Raise TypeError.
Proof.
  exact (proj1 (proj2 (non_numeric_measurement_raises
            [("measurements", VDict [("waistCircumference", VStr "80")])]))
            [("waistCircumference", VStr "80")] eq_refl (or_introl eq_refl)).
Defined.

(** X14.  A hipCircumference that is NaN classifies as [pear], whatever the
    other two numbers: both ratios are NaN and every comparison with NaN is
    false. *)
Theorem nan_hip_is_pear d m :
  lookup "measurements" d = Some (VDict m) ->
  measurement m "hipCircumference" 100 = VFloat NaN ->
  number (measurement m "waistCircumference" 80) ->
  number (measurement m "shoulderWidth" 45) ->
  classify_body_type (VDict d) = Ok (classification "pear").
Proof.
  intros M H Nw Ns.
  assert (T : forall v, number v -> truediv_values v (VFloat NaN) = Ok NaN).
  { intros v N. destruct (truediv_ok v (VFloat NaN) N I eq_refl) as (f & E).
    rewrite E. f_equal. unfold truediv_values in E.
    destruct (as_num v) as [a|e]; cbn [as_num bind] in E; [|discriminate E].
    destruct a as [z|x]; unfold truediv in E.
    - destruct (to_float (NInt z)) as [x|e]; cbn [bind to_float is_zero] in E;
        [|discriminate E].
      destruct x; cbn [fdiv] in E; congruence.
    - cbn [bind to_float is_zero] in E. destruct x; cbn [fdiv] in E; congruence. }
  rewrite (classify_eq d m NaN NaN M); [reflexivity | |]; rewrite H; apply T; assumption.
Qed.

Lemma nan_hip_is_pear_witness :
  classify_body_type
    (VDict [("measurements",
             VDict [("hipCircumference", VFloat NaN); ("waistCircumference", VInt 70)])])
  = Ok (classification "pear").
Proof.
  refine (nan_hip_is_pear
            [("measurements",
              VDict [("hipCircumference", VFloat NaN); ("waistCircumference", VInt 70)])]
            [("hipCircumference", VFloat NaN); ("waistCircumference", VInt 70)]
            eq_refl eq_refl _ _); vm_compute; discriminate.
Defined.

(** X15.  Signs are not checked: a waist that is not negative over a
    negative hip classifies as [hourglass], whatever the shoulder. *)
Theorem opposite_signs_are_hourglass d m a b c :
  lookup "measurements" d = Some (VDict m) ->
  exact (measurement m "waistCircumference" 80) = Some a ->
  exact (measurement m "hipCircumference" 100) = Some b ->
  exact (measurement m "shoulderWidth" 45) = Some c ->
  (0 <= a)%Q -> (b < 0)%Q ->
  classify_body_type (VDict d) = Ok (classification "hourglass").
Proof.
  intros M Ea Eb Ec Pa Nb.
  assert (N : (~ b == 0)%Q) by lra.
  rewrite (classify_eq d m _ _ M (truediv_exact_ok _ _ a b Ea Eb N)
             (truediv_exact_ok _ _ c b Ec Eb N)).
  unfold first_match. rewrite flt_nonpos; [reflexivity|].
  assert (I : (/ b < 0)%Q).
  { assert (0 < / - b)%Q by (apply Qinv_lt_0_compat; lra).
    assert (E : (/ - b == - / b)%Q) by (field; exact N). lra. }
  unfold Qdiv. nra.
Qed.

Lemma opposite_signs_are_hourglass_witness :
  classify_body_type
    (VDict [("measurements", VDict [("hipCircumference", VInt (-100))])])
  = Ok (classification "hourglass").
Proof.
  refine (opposite_signs_are_hourglass
            [("measurements", VDict [("hipCircumference", VInt (-100))])]
            [("hipCircumference", VInt (-100))] 80 (-100) 45
            eq_refl eq_refl eq_refl eq_refl _ _); vm_compute; first [discriminate | reflexivity].
Defined.

(** X16.  Whenever classification answers, the answer is one of the four
    body types with confidence 0.87, and the status is 200. *)
Theorem classification_answers data resp :
  classify_body_type data = Ok resp ->
  exists body_type,
    In body_type body_types /\ resp = classification body_type
    /\ status (respond (classify_body_type data)) = 200%Z.
Proof.
  intros H.
  destruct data as [ | | | | | |d]; try discriminate H.
  destruct (classify_inv d resp H) as (m & whr & shr & _ & _ & _ & E).
  exists (first_match whr shr). split; [apply first_match_types|].
  split; [exact E|]. rewrite H. reflexivity.
Qed.

Lemma classification_answers_witness :
  exists body_type,
    In body_type body_types /\ classification "pear" = classification body_type
    /\ status (respond (classify_body_type (measurements_request 80 100 40))) = 200%Z.
Proof.
  refine (classification_answers (measurements_request 80 100 40)
            (classification "pear") _).
  vm_compute. reflexivity.
Defined.

(** X17.  An infinite hipCircumference (the JSON number 1e999) classifies
    every finite waist as [hourglass]: the ratio is 0. *)
Theorem infinite_hip_is_hourglass d m a s :
  lookup "measurements" d = Some (VDict m) ->
  measurement m "hipCircumference" 100 = VFloat (Inf s) ->
  exact (measurement m "waistCircumference" 80) = Some a ->
  number (measurement m "shoulderWidth" 45) ->
  classify_body_type (VDict d) = Ok (classification "hourglass").
Proof.
  intros M H Ea Ns.
  destruct (truediv_ok _ (VFloat (Inf s)) Ns I eq_refl) as (shr & S).
  assert (W : truediv_values (measurement m "waistCircumference" 80) (VFloat (Inf s))
              = Ok (Fin 0)).
  { unfold truediv_values.
    destruct (exact_num _ a Ea) as [(x & -> & Hx & _)| ->]; cbn [as_num bind].
    - unfold truediv. destruct (to_float_exact x Hx) as (cx & -> & _). reflexivity.
    - reflexivity. }
  rewrite <- H in W, S. rewrite (classify_eq d m _ _ M W S). reflexivity.
Qed.

Lemma infinite_hip_is_hourglass_witness :
  classify_body_type
    (VDict [("measurements", VDict [("hipCircumference", VFloat (Inf false))])])
  = Ok (classification "hourglass").
Proof.
  refine (infinite_hip_is_hourglass
            [("measurements", VDict [("hipCircumference", VFloat (Inf false))])]
            [("hipCircumference", VFloat (Inf false))] 80 false
            eq_refl eq_refl eq_refl _).
  vm_compute. discriminate.
Defined.

(** X18.  An integer measurement of magnitude [2^1024] or more (JSON has no
    bound on integers) cannot be converted to a float: as the waist over a
    float hip, or as the hip under a float waist, it makes the first division
    raise OverflowError, whatever the float is, zero and NaN included. *)
Theorem huge_integer_measurement_overflows d m z :
  lookup "measurements" d = Some (VDict m) ->
  (2 ^ 1024 <= Z.abs z)%Z ->
  (forall h, measurement m "waistCircumference" 80 = VInt z ->
     measurement m "hipCircumference" 100 = VFloat h ->
     classify_body_type (VDict d) = Raise OverflowError)
  /\ (forall w, measurement m "waistCircumference" 80 = VFloat w ->
        measurement m "hipCircumference" 100 = VInt z ->
        classify_body_type (VDict d) = Raise OverflowError).
Proof.
  intros M H. split; intros f W Hh; unfold classify_body_type; cbn [get bind];
    rewrite M; cbn [get bind];
    fold (measurement m "waistCircumference" 80) (measurement m "hipCircumference" 100);
    rewrite W, Hh; unfold truediv_values at 1; cbn [as_num bind].
  - rewrite (proj1 (truediv_overflows z f H)). reflexivity.
  - rewrite (proj2 (truediv_overflows z f H)). reflexivity.
Qed.

Lemma huge_integer_measurement_overflows_witness :
  classify_body_type
    (VDict [("measurements",
             VDict [("waistCircumference", VInt (10 ^ 400)); ("hipCircumference", VFloat (lit 100))])])
  = Raise OverflowError.
Proof.
  refine (proj1 (huge_integer_measurement_overflows
            [("measurements",
              VDict [("waistCircumference", VInt (10 ^ 400)); ("hipCircumference", VFloat (lit 100))])]
            [("waistCircumference", VInt (10 ^ 400)); ("hipCircumference", VFloat (lit 100))]
            (10 ^ 400) eq_refl _) (lit 100) eq_refl eq_refl).
  vm_compute. discriminate.
Defined.
